(** * Tensor-parallel boundary operators of the AFNO model

    A shallow embedding of
    [physicsnemo/sym/models/afno/distributed/mappings.py]: the five
    [torch.autograd.Function] classes that mark where a tensor crosses the
    "model_parallel" group boundary, with their [symbolic], [forward] and
    [backward] methods.

    The methods are glue around four external collaborators: the group
    lookup [DistributedManager().group(name)] and the collectives [_reduce],
    [_split] and [_gather].  A method is embedded as a program over these
    calls and over the attribute store of its [ctx] object; the programs are
    then run in two ways:
    - on one rank, against arbitrary (stateful, fallible) collaborators, with
      a log of the collaborator calls that were made;
    - on all ranks of a simulated group in lockstep, against collectives
      that sum, cut and concatenate dense tensors. *)

From Stdlib Require Import ZArith Lia.
From stdpp Require Import base strings list gmap.

Set Warnings "-register-all".
Local Open Scope Z_scope.
Local Open Scope nat_scope.

(** ** Results and Python values *)

Inductive result (E A : Type) : Type :=
| Ok (a : A)
| Err (e : E).
Arguments Ok {E A} a.
Arguments Err {E A} e.

Definition result_map {E A B : Type} (f : A -> B) (r : result E A) : result E B :=
  match r with
  | Ok a => Ok (f a)
  | Err e => Err e
  end.

Definition result_bind {E A B : Type} (r : result E A) (f : A -> result E B)
  : result E B :=
  match r with
  | Ok a => f a
  | Err e => Err e
  end.

Definition is_ok {E A : Type} (r : result E A) : bool :=
  match r with
  | Ok _ => true
  | Err _ => false
  end.

(** What a method can raise: Python's own [AttributeError] when an attribute
    of [ctx] is read that was never set, or whatever an external collaborator
    raised, carried as it is. *)
Inductive exn (X : Type) : Type :=
| AttributeError (attr : string)
| External (e : X).
Arguments AttributeError {X} attr.
Arguments External {X} e.

(** The values a [backward] returns: a tensor, or a tuple with one slot per
    argument of [forward]. *)
Inductive pyval (T : Type) : Type :=
| VTensor (t : T)
| VNone
| VTuple (vs : list (pyval T)).
Arguments VTensor {T} t.
Arguments VNone {T}.
Arguments VTuple {T} vs.

(** The gradient with respect to the first argument of [forward], as the
    differentiation engine reads it off the value returned by [backward]. *)
Definition grad_input {T : Type} (v : pyval T) : option T :=
  match v with
  | VTensor t => Some t
  | VTuple (VTensor t :: _) => Some t
  | _ => None
  end.

(** ** The store of [ctx] objects

    A [ctx] is a Python object passed by reference; the store maps its
    address to its attribute dictionary. *)

Abbreviation loc := nat (only parsing).
Abbreviation heap := (gmap nat (gmap string Z)) (only parsing).

(** [ctx.a = v] *)
Definition set_attr (c : loc) (a : string) (v : Z) (h : heap) : heap :=
  <[c := <[a := v]> (default ∅ (h !! c))]> h.

(** [ctx.a], [None] when the object has no such attribute. *)
Definition get_attr (c : loc) (a : string) (h : heap) : option Z :=
  h !! c ≫= fun o => o !! a.

(** ** Programs over the external collaborators *)

Inductive prog (T G A : Type) : Type :=
| Ret (a : A)
| GetAttr (c : loc) (a : string) (k : Z -> prog T G A)
| SetAttr (c : loc) (a : string) (v : Z) (k : prog T G A)
| GroupCall (name : string) (k : G -> prog T G A)
| ReduceCall (t : T) (g : G) (k : T -> prog T G A)
| SplitCall (t : T) (d : Z) (g : G) (k : T -> prog T G A)
| GatherCall (t : T) (d : Z) (g : G) (k : T -> prog T G A).
Arguments Ret {T G A} a.
Arguments GetAttr {T G A} c a k.
Arguments SetAttr {T G A} c a v k.
Arguments GroupCall {T G A} name k.
Arguments ReduceCall {T G A} t g k.
Arguments SplitCall {T G A} t d g k.
Arguments GatherCall {T G A} t d g k.

Fixpoint bind {T G A B : Type} (p : prog T G A) (f : A -> prog T G B)
  : prog T G B :=
  match p with
  | Ret a => f a
  | GetAttr c a k => GetAttr c a (fun v => bind (k v) f)
  | SetAttr c a v k => SetAttr c a v (bind k f)
  | GroupCall name k => GroupCall name (fun g => bind (k g) f)
  | ReduceCall t g k => ReduceCall t g (fun x => bind (k x) f)
  | SplitCall t d g k => SplitCall t d g (fun x => bind (k x) f)
  | GatherCall t d g k => GatherCall t d g (fun x => bind (k x) f)
  end.

Declare Scope prog_scope.
Delimit Scope prog_scope with prog.
Notation "'let*' x ':=' p 'in' q" := (bind p (fun x => q))
  (at level 10, x name, p at level 100, q at level 200,
   format "'[v' 'let*'  x  ':='  p  'in' '/' q ']'") : prog_scope.
Local Open Scope prog_scope.

Section Collaborators.
Context {T G : Type}.

(** [ctx.dim = dim_] and [ctx.dim] *)
Definition ctx_set_dim (ctx : loc) (dim_ : Z) : prog T G unit :=
  SetAttr ctx "dim" dim_ (Ret tt).
Definition ctx_dim (ctx : loc) : prog T G Z :=
  GetAttr ctx "dim" Ret.

(** [DistributedManager().group(name)] *)
Definition DistributedManager_group (name : string) : prog T G G :=
  GroupCall name Ret.

(** [_reduce(input_, group=group)], [_split(input_, dim_, group=group)] and
    [_gather(input_, dim_, group=group)] of [distributed.helpers]. *)
Definition _reduce (input_ : T) (group : G) : prog T G T :=
  ReduceCall input_ group Ret.
Definition _split (input_ : T) (dim_ : Z) (group : G) : prog T G T :=
  SplitCall input_ dim_ group Ret.
Definition _gather (input_ : T) (dim_ : Z) (group : G) : prog T G T :=
  GatherCall input_ dim_ group Ret.
End Collaborators.

(** ** The operator classes

    Python evaluates the arguments of a call from left to right before the
    call: positional arguments first, then the [group=] keyword argument.
    The [graph] argument of [symbolic] is used by none of the classes and is
    left out. *)

Module _CopyToMatmulParallelRegion.
Section Methods.
Context {T G : Type}.

Definition symbolic (input_ : T) : prog T G T :=
  Ret input_.

Definition forward (ctx : loc) (input_ : T) : prog T G T :=
  Ret input_.

Definition backward (ctx : loc) (grad_output : T) : prog T G (pyval T) :=
  let* group := DistributedManager_group "model_parallel" in
  let* r := _reduce grad_output group in
  Ret (VTensor r).
End Methods.
End _CopyToMatmulParallelRegion.

Module _ReduceFromMatmulParallelRegion.
Section Methods.
Context {T G : Type}.

Definition symbolic (input_ : T) : prog T G T :=
  let* group := DistributedManager_group "model_parallel" in
  _reduce input_ group.

Definition forward (ctx : loc) (input_ : T) : prog T G T :=
  let* group := DistributedManager_group "model_parallel" in
  _reduce input_ group.

Definition backward (ctx : loc) (grad_output : T) : prog T G (pyval T) :=
  Ret (VTensor grad_output).
End Methods.
End _ReduceFromMatmulParallelRegion.

Module _ScatterToMatmulParallelRegion.
Section Methods.
Context {T G : Type}.

Definition symbolic (input_ : T) (dim_ : Z) : prog T G T :=
  let* group := DistributedManager_group "model_parallel" in
  _split input_ dim_ group.

Definition forward (ctx : loc) (input_ : T) (dim_ : Z) : prog T G T :=
  let* _ := ctx_set_dim ctx dim_ in
  let* group := DistributedManager_group "model_parallel" in
  _split input_ dim_ group.

Definition backward (ctx : loc) (grad_output : T) : prog T G (pyval T) :=
  let* dim := ctx_dim ctx in
  let* group := DistributedManager_group "model_parallel" in
  let* r := _gather grad_output dim group in
  Ret (VTuple [VTensor r; VNone]).
End Methods.
End _ScatterToMatmulParallelRegion.

Module _GatherFromMatmulParallelRegion.
Section Methods.
Context {T G : Type}.

Definition symbolic (input_ : T) (dim_ : Z) : prog T G T :=
  let* group := DistributedManager_group "model_parallel" in
  _gather input_ dim_ group.

Definition forward (ctx : loc) (input_ : T) (dim_ : Z) : prog T G T :=
  let* _ := ctx_set_dim ctx dim_ in
  let* group := DistributedManager_group "model_parallel" in
  _gather input_ dim_ group.

Definition backward (ctx : loc) (grad_output : T) : prog T G (pyval T) :=
  let* dim := ctx_dim ctx in
  let* group := DistributedManager_group "model_parallel" in
  let* r := _split grad_output dim group in
  Ret (VTuple [VTensor r; VNone]).
End Methods.
End _GatherFromMatmulParallelRegion.

Module _GatherWithinMatmulParallelRegion.
Section Methods.
Context {T G : Type}.

Definition symbolic (input_ : T) (dim_ : Z) : prog T G T :=
  let* group := DistributedManager_group "model_parallel" in
  _gather input_ dim_ group.

Definition forward (ctx : loc) (input_ : T) (dim_ : Z) : prog T G T :=
  let* _ := ctx_set_dim ctx dim_ in
  let* group := DistributedManager_group "model_parallel" in
  _gather input_ dim_ group.

Definition backward (ctx : loc) (grad_output : T) : prog T G (pyval T) :=
  let* group := DistributedManager_group "model_parallel" in
  let* red := _reduce grad_output group in
  let* dim := ctx_dim ctx in
  let* group' := DistributedManager_group "model_parallel" in
  let* r := _split red dim group' in
  Ret (VTuple [VTensor r; VNone]).
End Methods.
End _GatherWithinMatmulParallelRegion.

(** The five operators and their methods by name.  [Copy] and [Reduce] take
    no [dim_]; the dispatch ignores it for them. *)
Inductive operator : Type :=
| Copy
| Reduce
| Scatter
| Gather
| GatherWithin.

(** The operators whose [forward] takes a [dim_]. *)
Definition takes_dim (o : operator) : bool :=
  match o with
  | Copy | Reduce => false
  | Scatter | Gather | GatherWithin => true
  end.

Section Dispatch.
Context {T G : Type}.

Definition op_symbolic (o : operator) (input_ : T) (dim_ : Z) : prog T G T :=
  match o with
  | Copy => _CopyToMatmulParallelRegion.symbolic input_
  | Reduce => _ReduceFromMatmulParallelRegion.symbolic input_
  | Scatter => _ScatterToMatmulParallelRegion.symbolic input_ dim_
  | Gather => _GatherFromMatmulParallelRegion.symbolic input_ dim_
  | GatherWithin => _GatherWithinMatmulParallelRegion.symbolic input_ dim_
  end.

Definition op_forward (o : operator) (ctx : loc) (input_ : T) (dim_ : Z)
  : prog T G T :=
  match o with
  | Copy => _CopyToMatmulParallelRegion.forward ctx input_
  | Reduce => _ReduceFromMatmulParallelRegion.forward ctx input_
  | Scatter => _ScatterToMatmulParallelRegion.forward ctx input_ dim_
  | Gather => _GatherFromMatmulParallelRegion.forward ctx input_ dim_
  | GatherWithin => _GatherWithinMatmulParallelRegion.forward ctx input_ dim_
  end.

Definition op_backward (o : operator) (ctx : loc) (grad_output : T)
  : prog T G (pyval T) :=
  match o with
  | Copy => _CopyToMatmulParallelRegion.backward ctx grad_output
  | Reduce => _ReduceFromMatmulParallelRegion.backward ctx grad_output
  | Scatter => _ScatterToMatmulParallelRegion.backward ctx grad_output
  | Gather => _GatherFromMatmulParallelRegion.backward ctx grad_output
  | GatherWithin => _GatherWithinMatmulParallelRegion.backward ctx grad_output
  end.

(** One differentiation pass through an operator: [forward] on a [ctx],
    then [backward] on the same [ctx] with the gradient of the output. *)
Definition forward_backward (o : operator) (ctx : loc) (input_ : T)
    (dim_ : Z) (grad_output : T) : prog T G (pyval T) :=
  let* _ := op_forward o ctx input_ dim_ in
  op_backward o ctx grad_output.
End Dispatch.

(** ** One rank against arbitrary collaborators

    The collaborators are taken as they come: each call may depend on and
    change a state of the outside world [W] (the network, the peers), and may
    raise an error of type [X]. *)

Record collab (T G X W : Type) : Type := Collab {
  group_of : string -> W -> result X G * W;
  reduce_of : T -> G -> W -> result X T * W;
  split_of : T -> Z -> G -> W -> result X T * W;
  gather_of : T -> Z -> G -> W -> result X T * W
}.
Arguments Collab {T G X W} _ _ _ _.
Arguments group_of {T G X W} _ _ _.
Arguments reduce_of {T G X W} _ _ _ _.
Arguments split_of {T G X W} _ _ _ _ _.
Arguments gather_of {T G X W} _ _ _ _ _.

(** A collaborator call, as it is logged. *)
Inductive call (T G : Type) : Type :=
| CGroup (name : string)
| CReduce (t : T) (g : G)
| CSplit (t : T) (d : Z) (g : G)
| CGather (t : T) (d : Z) (g : G).
Arguments CGroup {T G} name.
Arguments CReduce {T G} t g.
Arguments CSplit {T G} t d g.
Arguments CGather {T G} t d g.

(** The dimension a call cuts or concatenates along. *)
Definition call_dim {T G : Type} (c : call T G) : option Z :=
  match c with
  | CSplit _ d _ | CGather _ d _ => Some d
  | CGroup _ | CReduce _ _ => None
  end.

(** The outcome of running a method: what it returned or raised, the store
    and the world it left, and the collaborator calls it made in order, each
    with the error it raised if it did. *)
Record run (T G X W A : Type) : Type := Run {
  r_out : result (exn X) A;
  r_heap : heap;
  r_world : W;
  r_trace : list (call T G * option X)
}.
Arguments Run {T G X W A} _ _ _ _.
Arguments r_out {T G X W A} _.
Arguments r_heap {T G X W A} _.
Arguments r_world {T G X W A} _.
Arguments r_trace {T G X W A} _.

Section Interp.
Context {T G X W : Type}.
Variable C : collab T G X W.

Definition logged {A : Type} (c : call T G) (r : run T G X W A) : run T G X W A :=
  Run (r_out r) (r_heap r) (r_world r) ((c, None) :: r_trace r).

Definition raised {A : Type} (c : call T G) (e : X) (h : heap) (w : W)
  : run T G X W A :=
  Run (Err (External e)) h w [(c, Some e)].

Fixpoint interp {A : Type} (p : prog T G A) (h : heap) (w : W)
  : run T G X W A :=
  match p with
  | Ret a => Run (Ok a) h w []
  | GetAttr c a k =>
      match get_attr c a h with
      | Some v => interp (k v) h w
      | None => Run (Err (AttributeError a)) h w []
      end
  | SetAttr c a v k => interp k (set_attr c a v h) w
  | GroupCall name k =>
      match group_of C name w with
      | (Ok g, w') => logged (CGroup name) (interp (k g) h w')
      | (Err e, w') => raised (CGroup name) e h w'
      end
  | ReduceCall t g k =>
      match reduce_of C t g w with
      | (Ok x, w') => logged (CReduce t g) (interp (k x) h w')
      | (Err e, w') => raised (CReduce t g) e h w'
      end
  | SplitCall t d g k =>
      match split_of C t d g w with
      | (Ok x, w') => logged (CSplit t d g) (interp (k x) h w')
      | (Err e, w') => raised (CSplit t d g) e h w'
      end
  | GatherCall t d g k =>
      match gather_of C t d g w with
      | (Ok x, w') => logged (CGather t d g) (interp (k x) h w')
      | (Err e, w') => raised (CGather t d g) e h w'
      end
  end.
End Interp.

(** ** Dense tensors and the collectives on them

    The helpers [_reduce], [_split] and [_gather] and the [DistributedManager]
    live in [physicsnemo.sym.distributed], outside this file; what they
    compute is taken from their description: an all-reduce sum over the
    group, this rank's shard of a tensor cut along a dimension, and the
    concatenation of all ranks' shards along a dimension in rank order.

    A tensor is a dense row-major array: its shape and its elements.  The
    elements are exact numbers. *)

Record tensor : Type := Tensor {
  shape : list nat;
  data : list Z
}.

#[global] Instance tensor_eq_dec : EqDecision tensor.
Proof. solve_decision. Defined.

Definition numel (s : list nat) : nat := foldr Nat.mul 1 s.

Definition well_shaped (t : tensor) : Prop :=
  length (data t) = numel (shape t).

(** A group handle: its name and the number of its ranks, which are numbered
    from 0. *)
Record group : Type := Group {
  group_name : string;
  group_size : nat
}.

#[global] Instance group_eq_dec : EqDecision group.
Proof. solve_decision. Defined.

(** What the simulated collaborators raise. *)
Inductive comm_error : Type :=
| GroupNotFound (name : string)
| CollectiveMismatch
| ShapeMismatch
| DimOutOfRange (d : Z)
| NotDivisible (size n : nat).

(** Modelled from the spec: the Group Registry ([DistributedManager], missing
    from the sources) resolves the name "model_parallel" to the group of the
    participating ranks; no other group is configured. *)
Definition registry_lookup (n : nat) (name : string) : result comm_error group :=
  if decide (name = "model_parallel") then Ok (Group name n)
  else Err (GroupNotFound name).

Definition tensor_add (a b : tensor) : result comm_error tensor :=
  if decide (shape a = shape b)
  then Ok (Tensor (shape a) (zip_with Z.add (data a) (data b)))
  else Err ShapeMismatch.

(** Modelled from the spec: [reduce(tensor, group)] (the helper [_reduce],
    missing from the sources) is the all-reduce sum, of the same shape, of
    the tensors the ranks of the group pass; here summed in rank order. *)
Definition all_reduce_sum (ts : list tensor) : result comm_error tensor :=
  match ts with
  | [] => Err CollectiveMismatch
  | t :: rest => foldl (fun acc x => result_bind acc (fun a => tensor_add a x)) (Ok t) rest
  end.

(** The axis a dimension index names: an existing axis of the shape,
    counted from 0.  An index outside [0 .. length s) names no axis. *)
Definition axis (d : Z) (s : list nat) : option nat :=
  if decide (0 <= d < Z.of_nat (length s))%Z then Some (Z.to_nat d) else None.

(** The first [n] consecutive blocks of [k] elements. *)
Fixpoint chunks (n k : nat) (l : list Z) : list (list Z) :=
  match n with
  | 0 => []
  | S n' => take k l :: chunks n' k (drop k l)
  end.

(** Shard [r] of [n] of a tensor cut along its axis [i].  In row-major order
    the tensor is a sequence of [outer] blocks of [size * inner] elements,
    and the shard takes elements [r * c * inner .. (r + 1) * c * inner) of
    each. *)
Definition shard (n r i : nat) (t : tensor) : tensor :=
  let size := default 0 (shape t !! i) in
  let c := size `div` n in
  let outer := numel (take i (shape t)) in
  let inner := numel (drop (S i) (shape t)) in
  Tensor (<[i := c]> (shape t))
    (concat ((fun b => take (c * inner) (drop (r * (c * inner)) b))
               <$> chunks outer (size * inner) (data t))).

(** Modelled from the spec: [split(tensor, dim, group)] (the helper [_split],
    missing from the sources) partitions the tensor along [dim] into one
    shard per rank and returns the shard of rank [r]; the size along [dim]
    is assumed divisible by the group size [n]. *)
Definition split_shard (n r : nat) (d : Z) (t : tensor) : result comm_error tensor :=
  match axis d (shape t) with
  | None => Err (DimOutOfRange d)
  | Some i =>
      let size := default 0 (shape t !! i) in
      if decide (n ≠ 0 ∧ size `mod` n = 0) then Ok (shard n r i t)
      else Err (NotDivisible size n)
  end.

(** The tensors [ts], all of shape [s], concatenated along the axis [i]:
    block [o] of the result is block [o] of each of them in turn. *)
Definition cat (i : nat) (s : list nat) (ts : list tensor) : tensor :=
  let c := default 0 (s !! i) in
  let outer := numel (take i s) in
  let inner := numel (drop (S i) s) in
  Tensor (<[i := length ts * c]> s)
    (concat ((fun o =>
                concat ((fun t => default [] (chunks outer (c * inner) (data t) !! o))
                          <$> ts))
               <$> seq 0 outer)).

(** Modelled from the spec: [gather(tensor, dim, group)] (the helper
    [_gather], missing from the sources) returns the full tensor, the shards
    of all ranks concatenated along [dim] in rank order.  The shards have one
    shape. *)
Definition gather_cat (d : Z) (ts : list tensor) : result comm_error tensor :=
  match ts with
  | [] => Err CollectiveMismatch
  | t0 :: _ =>
      match axis d (shape t0) with
      | None => Err (DimOutOfRange d)
      | Some i =>
          if decide (Forall (fun t => shape t = shape t0) ts)
          then Ok (cat i (shape t0) ts)
          else Err ShapeMismatch
      end
  end.

(** ** All ranks of the group in lockstep

    Every rank runs its program on its own store; in each round every rank
    makes its next step.  The group lookup and the cut of a shard are local.
    An all-reduce or a gather succeeds on a rank when every rank of the group
    is at the same collective on the same group (and dimension) in that
    round, and sees what all of them passed; otherwise the call sequences of
    the ranks do not match and the collective fails. *)

Inductive rank_state (A : Type) : Type :=
| Running (h : heap) (p : prog tensor group A)
| Raised (h : heap) (e : exn comm_error).
Arguments Running {A} h p.
Arguments Raised {A} h e.

Section Lockstep.
Context {A : Type}.

Definition pending_reduce (g : group) (s : rank_state A) : option tensor :=
  match s with
  | Running _ (ReduceCall t g' _) => if decide (g' = g) then Some t else None
  | _ => None
  end.

Definition pending_gather (d : Z) (g : group) (s : rank_state A) : option tensor :=
  match s with
  | Running _ (GatherCall t d' g' _) =>
      if decide (d' = d ∧ g' = g) then Some t else None
  | _ => None
  end.

Definition sim_reduce (ps : list (rank_state A)) (g : group)
  : result comm_error tensor :=
  if decide (group_size g = length ps) then
    match mapM (pending_reduce g) ps with
    | Some ts => all_reduce_sum ts
    | None => Err CollectiveMismatch
    end
  else Err CollectiveMismatch.

Definition sim_gather (ps : list (rank_state A)) (d : Z) (g : group)
  : result comm_error tensor :=
  if decide (group_size g = length ps) then
    match mapM (pending_gather d g) ps with
    | Some ts => gather_cat d ts
    | None => Err CollectiveMismatch
    end
  else Err CollectiveMismatch.

Definition resume (h : heap) (k : tensor -> prog tensor group A)
    (r : result comm_error tensor) : rank_state A :=
  match r with
  | Ok x => Running h (k x)
  | Err e => Raised h (External e)
  end.

(** The step of rank [r] in a round where the ranks are in states [ps]. *)
Definition rank_step (ps : list (rank_state A)) (r : nat) (s : rank_state A)
  : rank_state A :=
  match s with
  | Raised h e => Raised h e
  | Running h p =>
      match p with
      | Ret a => Running h (Ret a)
      | GetAttr c a k =>
          match get_attr c a h with
          | Some v => Running h (k v)
          | None => Raised h (AttributeError a)
          end
      | SetAttr c a v k => Running (set_attr c a v h) k
      | GroupCall name k =>
          match registry_lookup (length ps) name with
          | Ok g => Running h (k g)
          | Err e => Raised h (External e)
          end
      | ReduceCall t g k => resume h k (sim_reduce ps g)
      | SplitCall t d g k => resume h k (split_shard (group_size g) r d t)
      | GatherCall t d g k => resume h k (sim_gather ps d g)
      end
  end.

Definition spmd_step (ps : list (rank_state A)) : list (rank_state A) :=
  imap (rank_step ps) ps.

Fixpoint spmd_steps (fuel : nat) (ps : list (rank_state A)) : list (rank_state A) :=
  match fuel with
  | 0 => ps
  | S fuel' => spmd_steps fuel' (spmd_step ps)
  end.

(** What a rank returned or raised, [None] while it is still running. *)
Definition outcome (s : rank_state A) : option (result (exn comm_error) A) :=
  match s with
  | Running _ (Ret a) => Some (Ok a)
  | Running _ _ => None
  | Raised _ e => Some (Err e)
  end.

End Lockstep.

(** Every rank runs [method x] on its own store [h], where [(h, x)] is its
    entry of [inputs]; the result lists what each rank returned or
    raised within [fuel] rounds. *)
Definition spmd {I A : Type} (fuel : nat)
    (method : I -> prog tensor group A) (inputs : list (heap * I))
  : list (option (result (exn comm_error) A)) :=
  outcome <$> spmd_steps fuel ((fun i => Running i.1 (method i.2)) <$> inputs).

(** The errors the collaborators raised during a run. *)
Definition errors_of {T G X : Type} (tr : list (call T G * option X)) : list X :=
  omap snd tr.

(** Pass-through: a run that returns saw no collaborator raise; a run that
    raises does so with the error of the last collaborator call it made, as
    it is, and no earlier call had raised. *)
Definition passes_through {T G X A : Type} (out : result (exn X) A)
    (tr : list (call T G * option X)) : Prop :=
  match out with
  | Ok _ => errors_of tr = []
  | Err e => exists tr0 cl xe,
      tr = tr0 ++ [(cl, Some xe)] /\ errors_of tr0 = [] /\ e = External xe
  end.

(** The identity collectives of a group of one rank: with nobody to talk to,
    a reduction, a cut into one shard and a concatenation of one shard each
    return their input.  The group handle is [grp]. *)
Definition noop_collab {T G X : Type} (grp : G) : collab T G X unit :=
  Collab (fun _ w => (Ok grp, w))
         (fun t _ w => (Ok t, w))
         (fun t _ _ w => (Ok t, w))
         (fun t _ _ w => (Ok t, w)).

(** The collaborators of one rank that is alone in its group, computing with
    the collectives on dense tensors. *)
Definition alone_collab : collab tensor group comm_error unit :=
  Collab (fun name w => (registry_lookup 1 name, w))
         (fun t _ w => (all_reduce_sum [t], w))
         (fun t d g w => (split_shard (group_size g) 0 d t, w))
         (fun t d _ w => (gather_cat d [t], w)).

(** A collaborator's result as the result of the method that called it. *)
Definition external {X A : Type} (r : result X A) : result (exn X) A :=
  match r with
  | Ok a => Ok a
  | Err e => Err (External e)
  end.

(** ** The exported functions

    [_X.apply(...)] has the differentiation engine make a [ctx] object for
    the call and run [_X.forward] on it; [ctx] is the address of that
    object. *)

Section Exported.
Context {T G : Type}.

Definition copy_to_matmul_parallel_region (ctx : loc) (input_ : T) : prog T G T :=
  _CopyToMatmulParallelRegion.forward ctx input_.

Definition reduce_from_matmul_parallel_region (ctx : loc) (input_ : T) : prog T G T :=
  _ReduceFromMatmulParallelRegion.forward ctx input_.

Definition scatter_to_matmul_parallel_region (ctx : loc) (input_ : T) (dim : Z)
  : prog T G T :=
  _ScatterToMatmulParallelRegion.forward ctx input_ dim.

Definition gather_from_matmul_parallel_region (ctx : loc) (input_ : T) (dim : Z)
  : prog T G T :=
  _GatherFromMatmulParallelRegion.forward ctx input_ dim.

Definition gather_within_matmul_parallel_region (ctx : loc) (input_ : T) (dim : Z)
  : prog T G T :=
  _GatherWithinMatmulParallelRegion.forward ctx input_ dim.

(** [gather_from_matmul_parallel_region(
       scatter_to_matmul_parallel_region(input_, dim), dim)] *)
Definition scatter_then_gather (ctx ctx' : loc) (dim : Z) (input_ : T)
  : prog T G T :=
  let* shard := scatter_to_matmul_parallel_region ctx input_ dim in
  gather_from_matmul_parallel_region ctx' shard dim.
End Exported.

(** The [ctx] at [c] holds the dimension [d] on every rank. *)
Definition recorded {I : Type} (c : loc) (d : Z) (ins : list (heap * I)) : Prop :=
  Forall (fun i => get_attr c "dim" i.1 = Some d) ins.

(** What the engine takes from the outcomes of a [backward] as the gradients
    of the input, and the outcomes of a [forward] in the same form. *)
Definition input_grads {E T : Type} (outs : list (option (result E (pyval T))))
  : list (option (result E (option T))) :=
  (fun o : option (result E (pyval T)) => result_map grad_input <$> o) <$> outs.

Definition outputs {E T : Type} (outs : list (option (result E T)))
  : list (option (result E (option T))) :=
  (fun o : option (result E T) => result_map Some <$> o) <$> outs.

(** ** Sample inputs: a group of two ranks *)

Definition sample_x : tensor := Tensor [4; 2] [1; 2; 3; 4; 5; 6; 7; 8]%Z.
Definition sample_g0 : tensor := Tensor [4; 1] [1; 2; 3; 4]%Z.
Definition sample_g1 : tensor := Tensor [4; 1] [10; 20; 30; 40]%Z.

(** The store after [ctx.dim = 1] on the [ctx] at address 0. *)
Definition sample_heap : heap := set_attr 0 "dim" 1%Z ∅.

Definition sample_grads : list (heap * tensor) :=
  [(sample_heap, sample_g0); (sample_heap, sample_g1)].

Definition sample_family (r : nat) : tensor :=
  match r with
  | 0 => sample_g0
  | _ => sample_g1
  end.

(** The same gradients on [ctx] objects that hold [dim = 0]: the size 4
    along dimension 0 splits over the two ranks. *)
Definition sample_heap0 : heap := set_attr 0 "dim" 0%Z ∅.

Definition sample_grads0 : list (heap * tensor) :=
  [(sample_heap0, sample_g0); (sample_heap0, sample_g1)].

(** Element [i] of every tensor of [ts], summed. *)
Definition sum_at (i : nat) (ts : list tensor) : Z :=
  foldr Z.add 0%Z ((fun t => default 0%Z (data t !! i)) <$> ts).

(** The inner product of two tensors, as flat sequences of elements. *)
Definition sumZ (l : list Z) : Z := foldr Z.add 0%Z l.

Definition dotl (a b : list Z) : Z := sumZ (zip_with Z.mul a b).

Definition dot (a b : tensor) : Z := dotl (data a) (data b).

(** ** Reading a log of collaborator calls *)

(** What kind of call it was: the name that was looked up, or the
    collective and the dimension it was asked to work along. *)
Inductive call_kind : Type :=
| KGroup (name : string)
| KReduce
| KSplit (d : Z)
| KGather (d : Z).

Definition kind_of {T G : Type} (c : call T G) : call_kind :=
  match c with
  | CGroup name => KGroup name
  | CReduce _ _ => KReduce
  | CSplit _ d _ => KSplit d
  | CGather _ d _ => KGather d
  end.

(** The kinds of the calls of a log, in order. *)
Definition schedule {T G X : Type} (tr : list (call T G * option X))
  : list call_kind :=
  (fun e => kind_of e.1) <$> tr.

(** A call that communicates with the other ranks: anything but the group
    lookup. *)
Definition is_collective {T G : Type} (c : call T G) : bool :=
  match c with
  | CGroup _ => false
  | CReduce _ _ | CSplit _ _ _ | CGather _ _ _ => true
  end.

Definition collective_count {T G X : Type} (tr : list (call T G * option X)) : nat :=
  length (List.filter (fun e => is_collective e.1) tr).

(** The tensor and the group handle a collective was called with. *)
Definition call_tensor {T G : Type} (c : call T G) : option T :=
  match c with
  | CGroup _ => None
  | CReduce t _ | CSplit t _ _ | CGather t _ _ => Some t
  end.

Definition call_group {T G : Type} (c : call T G) : option G :=
  match c with
  | CGroup _ => None
  | CReduce _ g | CSplit _ _ g | CGather _ _ g => Some g
  end.

(** Every collective call of the log comes right after a group lookup for
    "model_parallel" that returned. *)
Definition lookup_before_collective {T G X : Type} (tr : list (call T G * option X))
  : Prop :=
  forall i cl r, tr !! i = Some (cl, r) -> is_collective cl = true ->
    exists j, i = S j /\ tr !! j = Some (CGroup "model_parallel", None).

(** The operator whose [forward] does what the [backward] of [o] does. *)
Definition dual (o : operator) : option operator :=
  match o with
  | Copy => Some Reduce
  | Reduce => Some Copy
  | Scatter => Some Gather
  | Gather => Some Scatter
  | GatherWithin => None
  end.

(** ** The exported functions in use *)

Section Pipelines.
Context {T G : Type}.

(** The exported function of an operator. *)
Definition op_apply (o : operator) (ctx : loc) (input_ : T) (dim : Z) : prog T G T :=
  match o with
  | Copy => copy_to_matmul_parallel_region ctx input_
  | Reduce => reduce_from_matmul_parallel_region ctx input_
  | Scatter => scatter_to_matmul_parallel_region ctx input_ dim
  | Gather => gather_from_matmul_parallel_region ctx input_ dim
  | GatherWithin => gather_within_matmul_parallel_region ctx input_ dim
  end.

(** [scatter_to_matmul_parallel_region(
         reduce_from_matmul_parallel_region(input_), dim)] *)
Definition reduce_then_scatter (ctx ctx' : loc) (dim : Z) (input_ : T) : prog T G T :=
  let* red := reduce_from_matmul_parallel_region ctx input_ in
  scatter_to_matmul_parallel_region ctx' red dim.

(** A stack of exported functions, each applied to the output of the one
    before: an entry names the operator, the [ctx] object made for its call
    and its [dim]. *)
Fixpoint forward_chain (ls : list (operator * loc * Z)) (input_ : T) : prog T G T :=
  match ls with
  | [] => Ret input_
  | (o, ctx, dim) :: rest =>
      let* y := op_apply o ctx input_ dim in
      forward_chain rest y
  end.

(** The [backward] methods of a stack, each on its own [ctx] and on the
    gradient the one before returned for its input. *)
Fixpoint backward_chain (ls : list (operator * loc * Z)) (grad_output : T)
  : prog T G (option T) :=
  match ls with
  | [] => Ret (Some grad_output)
  | (o, ctx, _) :: rest =>
      let* v := op_backward o ctx grad_output in
      match grad_input v with
      | Some g => backward_chain rest g
      | None => Ret None
      end
  end.

(** One differentiation pass through a stack: the forward calls in order,
    then the backward methods in reverse order, from the gradient of the
    last output. *)
Definition training_pass (ls : list (operator * loc * Z)) (input_ grad_output : T)
  : prog T G (option T) :=
  let* _ := forward_chain ls input_ in
  backward_chain (reverse ls) grad_output.
End Pipelines.

(** The store a stack of forward calls leaves. *)
Definition chain_heap (ls : list (operator * loc * Z)) (h : heap) : heap :=
  foldl (fun h l => if takes_dim l.1.1 then set_attr l.1.2 "dim" l.2 h else h) h ls.

(** Collaborators of a process where no group is configured: every lookup
    raises, the collectives are those of one rank alone. *)
Definition unconfigured_collab : collab tensor group comm_error unit :=
  Collab (fun name w => (Err (GroupNotFound name), w))
         (fun t _ w => (all_reduce_sum [t], w))
         (fun t d g w => (split_shard (group_size g) 0 d t, w))
         (fun t d _ w => (gather_cat d [t], w)).

(** A stack of three calls, each with its own [ctx]. *)
Definition sample_stack : list (operator * loc * Z) :=
  [(Copy, 0, 0%Z); (Scatter, 1, 0%Z); (Gather, 2, 0%Z)].

(** * Properties *)

(** ** Running programs on one rank *)

Ltac unfold_methods :=
  cbv [op_symbolic op_forward op_backward forward_backward
       _CopyToMatmulParallelRegion.symbolic _CopyToMatmulParallelRegion.forward
       _CopyToMatmulParallelRegion.backward
       _ReduceFromMatmulParallelRegion.symbolic _ReduceFromMatmulParallelRegion.forward
       _ReduceFromMatmulParallelRegion.backward
       _ScatterToMatmulParallelRegion.symbolic _ScatterToMatmulParallelRegion.forward
       _ScatterToMatmulParallelRegion.backward
       _GatherFromMatmulParallelRegion.symbolic _GatherFromMatmulParallelRegion.forward
       _GatherFromMatmulParallelRegion.backward
       _GatherWithinMatmulParallelRegion.symbolic _GatherWithinMatmulParallelRegion.forward
       _GatherWithinMatmulParallelRegion.backward
       ctx_set_dim ctx_dim DistributedManager_group _reduce _split _gather bind].

Lemma get_set_attr (c : nat) (a : string) (v : Z) (h : gmap nat (gmap string Z)) :
  get_attr c a (set_attr c a v h) = Some v.
Proof.
  unfold get_attr, set_attr. rewrite lookup_insert_eq. simpl.
  apply lookup_insert_eq.
Qed.

Lemma lookup_set_attr_ne (c c' : nat) (a : string) (v : Z)
    (h : gmap nat (gmap string Z)) :
  c' ≠ c -> set_attr c' a v h !! c = h !! c.
Proof. intros Hne. unfold set_attr. by rewrite lookup_insert_ne. Qed.

Lemma get_attr_agree (c : nat) (a : string) (h h' : gmap nat (gmap string Z)) :
  h !! c = h' !! c -> get_attr c a h = get_attr c a h'.
Proof. unfold get_attr. by intros ->. Qed.

Section InterpFacts.
Context {T G X W : Type}.
Variable C : collab T G X W.

Lemma interp_bind {A B : Type} (p : prog T G A) (f : A -> prog T G B)
    (h : gmap nat (gmap string Z)) (w : W) :
  interp C (bind p f) h w =
  let r := interp C p h w in
  match r_out r with
  | Ok a =>
      let r' := interp C (f a) (r_heap r) (r_world r) in
      Run (r_out r') (r_heap r') (r_world r') (r_trace r ++ r_trace r')
  | Err e => Run (Err e) (r_heap r) (r_world r) (r_trace r)
  end.
Proof.
  revert h w.
  induction p as [a|c a k IH|c a v k IH|name k IH|t g k IH|t d g k IH|t d g k IH];
    intros h w; simpl.
  - by destruct (interp C (f a) h w).
  - destruct (get_attr c a h); [apply IH | done].
  - apply IH.
  - destruct (group_of C name w) as [[g|e] w']; [|done].
    rewrite IH. simpl. by destruct (r_out (interp C (k g) h w')).
  - destruct (reduce_of C t g w) as [[x|e] w']; [|done].
    rewrite IH. simpl. by destruct (r_out (interp C (k x) h w')).
  - destruct (split_of C t d g w) as [[x|e] w']; [|done].
    rewrite IH. simpl. by destruct (r_out (interp C (k x) h w')).
  - destruct (gather_of C t d g w) as [[x|e] w']; [|done].
    rewrite IH. simpl. by destruct (r_out (interp C (k x) h w')).
Qed.

(** No program recovers from or rewrites a collaborator's error: the
    language of the methods has no handler. *)
Lemma interp_errors {A : Type} (p : prog T G A)
    (h : gmap nat (gmap string Z)) (w : W) :
  match r_out (interp C p h w) with
  | Err (AttributeError _) => errors_of (r_trace (interp C p h w)) = []
  | out => passes_through out (r_trace (interp C p h w))
  end.
Proof.
  assert (Hlog : forall (cl : call T G) (r : run T G X W A),
    match r_out r with
    | Err (AttributeError _) => errors_of (r_trace r) = []
    | out => passes_through out (r_trace r)
    end ->
    match r_out (logged cl r) with
    | Err (AttributeError _) => errors_of (r_trace (logged cl r)) = []
    | out => passes_through out (r_trace (logged cl r))
    end).
  { intros cl [out hh ww tr]. simpl. destruct out as [a|[a|xe]]; simpl; try done.
    intros (tr0 & cl' & xe' & -> & H0 & Heq).
    exists ((cl, None) :: tr0), cl', xe'. by rewrite <- H0. }
  assert (Hraise : forall (cl : call T G) (e : X),
    passes_through (@Err (exn X) A (External e)) [(cl, Some e)]).
  { intros cl e. by exists [], cl, e. }
  revert h w.
  induction p as [a|c a k IH|c a v k IH|name k IH|t g k IH|t d g k IH|t d g k IH];
    intros h w; simpl.
  - done.
  - destruct (get_attr c a h); [apply IH | done].
  - apply IH.
  - destruct (group_of C name w) as [[g|e] w']; [apply Hlog, IH | by apply Hraise].
  - destruct (reduce_of C t g w) as [[x|e] w']; [apply Hlog, IH | by apply Hraise].
  - destruct (split_of C t d g w) as [[x|e] w']; [apply Hlog, IH | by apply Hraise].
  - destruct (gather_of C t d g w) as [[x|e] w']; [apply Hlog, IH | by apply Hraise].
Qed.
End InterpFacts.

Ltac run_collab C :=
  repeat first
    [ progress simpl
    | match goal with
      | |- context [group_of C ?n ?w] =>
          let g := fresh "g" in let e := fresh "e" in let w' := fresh "w" in
          destruct (group_of C n w) as [[g|e] w']
      | |- context [reduce_of C ?t ?g ?w] =>
          let x := fresh "x" in let e := fresh "e" in let w' := fresh "w" in
          destruct (reduce_of C t g w) as [[x|e] w']
      | |- context [split_of C ?t ?d ?g ?w] =>
          let x := fresh "x" in let e := fresh "e" in let w' := fresh "w" in
          destruct (split_of C t d g w) as [[x|e] w']
      | |- context [gather_of C ?t ?d ?g ?w] =>
          let x := fresh "x" in let e := fresh "e" in let w' := fresh "w" in
          destruct (gather_of C t d g w) as [[x|e] w']
      end ].

Section OneRank.
Context {T G X W : Type}.
Variable C : collab T G X W.

(** [forward] writes [ctx.dim] and nothing else to the store. *)
Lemma forward_heap (o : operator) (c : nat) (x : T) (d : Z)
    (h : gmap nat (gmap string Z)) (w : W) :
  r_heap (interp C (op_forward o c x d) h w) =
  if takes_dim o then set_attr c "dim" d h else h.
Proof. destruct o; unfold_methods; run_collab C; done. Qed.

(** [backward] writes nothing to the store. *)
Lemma backward_heap (o : operator) (c : nat) (g : T)
    (h : gmap nat (gmap string Z)) (w : W) :
  r_heap (interp C (op_backward o c g) h w) = h.
Proof.
  destruct o; unfold_methods; run_collab C; try done;
    destruct (get_attr c "dim" h); run_collab C; done.
Qed.
(** A differentiation pass never reads a [ctx.dim] that is not there. *)
Lemma forward_no_attribute_error (o : operator) (c : nat) (x : T) (d : Z)
    (h : gmap nat (gmap string Z)) (w : W) (a : string) :
  r_out (interp C (op_forward o c x d) h w) <> Err (AttributeError a).
Proof. destruct o; unfold_methods; run_collab C; done. Qed.

Lemma symbolic_no_attribute_error (o : operator) (x : T) (d : Z)
    (h : gmap nat (gmap string Z)) (w : W) (a : string) :
  r_out (interp C (op_symbolic o x d) h w) <> Err (AttributeError a).
Proof. destruct o; unfold_methods; run_collab C; done. Qed.

Lemma backward_no_attribute_error (o : operator) (c : nat) (g : T) (d : Z)
    (h : gmap nat (gmap string Z)) (w : W) (a : string) :
  (takes_dim o = true -> get_attr c "dim" h = Some d) ->
  r_out (interp C (op_backward o c g) h w) <> Err (AttributeError a).
Proof.
  intros Hd. destruct o; unfold_methods; run_collab C; try done;
    rewrite (Hd eq_refl); run_collab C; done.
Qed.

Lemma pair_no_attribute_error (o : operator) (c : nat) (x g : T) (d : Z)
    (h : gmap nat (gmap string Z)) (w : W) (a : string) :
  r_out (interp C (forward_backward o c x d g) h w) <> Err (AttributeError a).
Proof.
  unfold forward_backward. rewrite interp_bind. cbv zeta.
  destruct (r_out (interp C (op_forward o c x d) h w)) as [y|e] eqn:Hf.
  - simpl. apply backward_no_attribute_error with (d := d).
    intros Hd. rewrite forward_heap, Hd. apply get_set_attr.
  - simpl. intros [= ->]. by apply forward_no_attribute_error in Hf.
Qed.

Lemma passes_through_of_run {A : Type} (p : prog T G A)
    (h : gmap nat (gmap string Z)) (w : W) :
  (forall a, r_out (interp C p h w) <> Err (AttributeError a)) ->
  passes_through (r_out (interp C p h w)) (r_trace (interp C p h w)).
Proof.
  intros Hno. pose proof (interp_errors C p h w) as H.
  destruct (r_out (interp C p h w)) as [a|[a|xe]]; try done.
  by destruct (Hno a).
Qed.

(** C8: the operators pass errors through.  Against any collaborators, the
    [symbolic] and the [forward] of each of the five operators, a
    [forward] followed by its [backward], and a [backward] run later on a
    [ctx] that holds the recorded [dim], return only if no collaborator
    call raised, and raise only the error of the last collaborator call
    they made, unchanged: nothing is called after a failure, and no error
    of the operators' own is raised. *)
Theorem errors_pass_through (o : operator) (c : nat) (x g : T) (d : Z)
    (h : gmap nat (gmap string Z)) (w : W) :
  let s := interp C (op_symbolic o x d) h w in
  let f := interp C (op_forward o c x d) h w in
  let fb := interp C (forward_backward o c x d g) h w in
  passes_through (r_out s) (r_trace s) /\
  passes_through (r_out f) (r_trace f) /\
  passes_through (r_out fb) (r_trace fb) /\
  forall (h' : gmap nat (gmap string Z)) (w' : W),
    get_attr c "dim" h' = Some d ->
    let b := interp C (op_backward o c g) h' w' in
    passes_through (r_out b) (r_trace b).
Proof.
  cbv zeta. repeat split.
  - apply passes_through_of_run. intros a. apply symbolic_no_attribute_error.
  - apply passes_through_of_run. intros a. apply forward_no_attribute_error.
  - apply passes_through_of_run. intros a. apply pair_no_attribute_error.
  - intros h' w' Hd. apply passes_through_of_run. intros a.
    by apply backward_no_attribute_error with (d := d).
Qed.

(** C9: what [backward] returns.  Whenever the [backward] of Scatter,
    Gather or Gather-Within returns, it returns a pair of a tensor and
    [None]; whenever the [backward] of Copy or Reduce returns, it returns
    a single tensor. *)
Theorem backward_result_shape (o : operator) (c : nat) (g : T)
    (h : gmap nat (gmap string Z)) (w : W) (v : pyval T) :
  r_out (interp C (op_backward o c g) h w) = Ok v ->
  if takes_dim o then exists t, v = VTuple [VTensor t; VNone]
  else exists t, v = VTensor t.
Proof.
  destruct o; unfold_methods; run_collab C; try done;
    try (intros [= <-]; by eexists);
    destruct (get_attr c "dim" h); run_collab C; try done;
    intros [= <-]; by eexists.
Qed.

(** C10: [symbolic] and [forward] agree.  For each of the five operators
    and against any collaborators, [symbolic] makes the same collaborator
    calls with the same arguments as [forward], leaves the outside world
    in the same state and returns or raises the same. *)
Theorem symbolic_agrees_with_forward (o : operator) (c : nat) (x : T) (d : Z)
    (h : gmap nat (gmap string Z)) (w : W) :
  let s := interp C (op_symbolic o x d) h w in
  let f := interp C (op_forward o c x d) h w in
  r_out s = r_out f /\ r_trace s = r_trace f /\ r_world s = r_world f.
Proof. destruct o; unfold_methods; run_collab C; done. Qed.

(** C6: the dimension of [backward] is the one recorded by [forward].
    The [forward] of Scatter, Gather and Gather-Within with dimension [d]
    on a [ctx] changes the store in one place: it sets [ctx.dim] to [d].
    The [forward] of any operator on another [ctx] leaves this [ctx] as it
    is, and no [backward] writes to the store.  A later [backward] on a
    store where this [ctx] is as [forward] left it takes no dimension from
    its caller; every cut or concatenation it asks for is along [d], it
    never fails to find [ctx.dim], and when it returns it has asked for
    one.  Nothing clears the record: after the [backward], returned or
    raised, [ctx.dim] is still [d]. *)
Theorem dim_recorded_in_ctx (o : operator) (c : nat) (x g : T) (d : Z)
    (h : gmap nat (gmap string Z)) (w : W) :
  takes_dim o = true ->
  let f := interp C (op_forward o c x d) h w in
  r_heap f = set_attr c "dim" d h /\
  (forall (o' : operator) (c' : nat) (x' : T) (d' : Z)
          (h' : gmap nat (gmap string Z)) (w' : W),
      c' <> c ->
      r_heap (interp C (op_forward o' c' x' d') h' w') !! c = h' !! c) /\
  (forall (o' : operator) (c' : nat) (g' : T)
          (h' : gmap nat (gmap string Z)) (w' : W),
      r_heap (interp C (op_backward o' c' g') h' w') = h') /\
  forall (h' : gmap nat (gmap string Z)) (w' : W),
    h' !! c = r_heap f !! c ->
    let b := interp C (op_backward o c g) h' w' in
    Forall (fun e => call_dim e.1 = None \/ call_dim e.1 = Some d) (r_trace b) /\
    (forall a, r_out b <> Err (AttributeError a)) /\
    (is_ok (r_out b) = true ->
     exists e, e ∈ r_trace b /\ call_dim e.1 = Some d) /\
    get_attr c "dim" (r_heap b) = Some d.
Proof.
  intros Hd. cbv zeta.
  assert (Hf : r_heap (interp C (op_forward o c x d) h w) = set_attr c "dim" d h).
  { by rewrite forward_heap, Hd. }
  split; [exact Hf|]. split; [|split].
  - intros o' c' x' d' h' w' Hne. rewrite forward_heap.
    destruct (takes_dim o'); [by apply lookup_set_attr_ne | done].
  - intros. apply backward_heap.
  - intros h' w' Hagree.
    assert (Hget : get_attr c "dim" h' = Some d).
    { rewrite (get_attr_agree c "dim" h' _ Hagree), Hf. apply get_set_attr. }
    split; [|split; [|split]]; [| | |by rewrite backward_heap].
    + destruct o; try done; unfold_methods; run_collab C; rewrite ?Hget;
        run_collab C;
        repeat first [apply Forall_nil_2 | apply Forall_cons_2; [simpl; by auto|]].
    + intros a. by apply backward_no_attribute_error with (d := d).
    + destruct o; try done; unfold_methods; run_collab C; rewrite ?Hget;
        run_collab C; try done; intros _;
        match goal with
        | |- exists e, e ∈ ?tr /\ _ =>
            match tr with
            | context [(?cl, ?r) :: _] =>
                exists (cl, r); split; [set_solver | reflexivity]
            end
        end.
Qed.

(** C7: one rank alone.  When the group lookup returns the group and the
    reduction, the cut and the concatenation on that group each return
    their input, the [forward] of each of the five operators returns its
    input and a [forward] followed by its [backward] returns the incoming
    gradient as the gradient of the input, for every input, dimension and
    gradient. *)
Theorem single_rank_identity (grp : G) :
  (forall w, group_of C "model_parallel" w = (Ok grp, w)) ->
  (forall t w, reduce_of C t grp w = (Ok t, w)) ->
  (forall t d w, split_of C t d grp w = (Ok t, w)) ->
  (forall t d w, gather_of C t d grp w = (Ok t, w)) ->
  forall (o : operator) (c : nat) (x g : T) (d : Z)
         (h : gmap nat (gmap string Z)) (w : W),
    r_out (interp C (op_forward o c x d) h w) = Ok x /\
    result_map grad_input (r_out (interp C (forward_backward o c x d g) h w))
      = Ok (Some g) /\
    (get_attr c "dim" h = Some d ->
     result_map grad_input (r_out (interp C (op_backward o c g) h w))
       = Ok (Some g)).
Proof.
  intros Hgrp Hred Hsplit Hgather o c x g d h w.
  destruct o; unfold_methods; simpl;
    rewrite ?Hgrp; simpl; rewrite ?Hred, ?Hsplit, ?Hgather; simpl;
    rewrite ?get_set_attr; simpl;
    rewrite ?Hgrp; simpl; rewrite ?Hred, ?Hsplit, ?Hgather; simpl;
    rewrite ?get_set_attr; simpl;
    rewrite ?Hgrp; simpl; rewrite ?Hred, ?Hsplit, ?Hgather; simpl;
    (split; [done|]); (split; [done|]); try done;
    intros ->; simpl;
    rewrite ?Hgrp; simpl; rewrite ?Hred, ?Hsplit, ?Hgather; simpl;
    rewrite ?Hgrp; simpl; rewrite ?Hred, ?Hsplit, ?Hgather; simpl; done.
Qed.
End OneRank.

(** ** Running programs on all ranks *)

Section LockstepFacts.
Context {A I : Type}.
Implicit Types (xs : list I) (ps : list (rank_state A)).

Lemma spmd_step_imap (F : nat -> I -> rank_state A) xs :
  spmd_step (imap F xs) = imap (fun r x => rank_step (imap F xs) r (F r x)) xs.
Proof.
  unfold spmd_step. apply list_eq. intros i.
  rewrite !list_lookup_imap. by destruct (xs !! i).
Qed.

Lemma mapM_imap_Some {B : Type} (f : rank_state A -> option B)
    (F : nat -> I -> rank_state A) (g : nat -> I -> B) xs :
  (forall r x, xs !! r = Some x -> f (F r x) = Some (g r x)) ->
  mapM f (imap F xs) = Some (imap g xs).
Proof.
  revert F g. induction xs as [|x xs IH]; intros F g Hf; [done|].
  rewrite !imap_cons. simpl. rewrite (Hf 0 x eq_refl). simpl.
  rewrite (IH (F ∘ S) (g ∘ S)); [done|].
  intros r y Hy. apply (Hf (S r) y Hy).
Qed.

Lemma step_get_attr (H : nat -> I -> gmap nat (gmap string Z)) (c : nat)
    (a : string) (v : Z) (K : nat -> I -> Z -> prog tensor group A) xs :
  (forall r x, xs !! r = Some x -> get_attr c a (H r x) = Some v) ->
  spmd_step (imap (fun r x => Running (H r x) (GetAttr c a (K r x))) xs) =
  imap (fun r x => Running (H r x) (K r x v)) xs.
Proof.
  intros Hv. rewrite spmd_step_imap. apply imap_ext. intros r x Hx. simpl.
  by rewrite (Hv r x Hx).
Qed.

Lemma step_set_attr (H : nat -> I -> gmap nat (gmap string Z)) (c : nat)
    (a : string) (v : Z) (K : nat -> I -> prog tensor group A) xs :
  spmd_step (imap (fun r x => Running (H r x) (SetAttr c a v (K r x))) xs) =
  imap (fun r x => Running (set_attr c a v (H r x)) (K r x)) xs.
Proof. rewrite spmd_step_imap. by apply imap_ext. Qed.

Lemma step_group (H : nat -> I -> gmap nat (gmap string Z))
    (K : nat -> I -> group -> prog tensor group A) xs :
  spmd_step (imap (fun r x => Running (H r x) (GroupCall "model_parallel" (K r x))) xs) =
  imap (fun r x => Running (H r x) (K r x (Group "model_parallel" (length xs)))) xs.
Proof.
  rewrite spmd_step_imap. apply imap_ext. intros r x Hx. simpl.
  by rewrite length_imap.
Qed.

Lemma step_reduce (H : nat -> I -> gmap nat (gmap string Z))
    (t : nat -> I -> tensor) (K : nat -> I -> tensor -> prog tensor group A) xs :
  spmd_step (imap (fun r x => Running (H r x)
               (ReduceCall (t r x) (Group "model_parallel" (length xs)) (K r x))) xs) =
  imap (fun r x => resume (H r x) (K r x) (all_reduce_sum (imap t xs))) xs.
Proof.
  rewrite spmd_step_imap. apply imap_ext. intros r x Hx. simpl.
  unfold sim_reduce. simpl. rewrite length_imap, decide_True by done.
  rewrite (mapM_imap_Some _ _ t); [done|].
  intros r' x' _. simpl. by rewrite decide_True.
Qed.

Lemma step_gather (H : nat -> I -> gmap nat (gmap string Z)) (d : Z)
    (t : nat -> I -> tensor) (K : nat -> I -> tensor -> prog tensor group A) xs :
  spmd_step (imap (fun r x => Running (H r x)
               (GatherCall (t r x) d (Group "model_parallel" (length xs)) (K r x))) xs) =
  imap (fun r x => resume (H r x) (K r x) (gather_cat d (imap t xs))) xs.
Proof.
  rewrite spmd_step_imap. apply imap_ext. intros r x Hx. simpl.
  unfold sim_gather. simpl. rewrite length_imap, decide_True by done.
  rewrite (mapM_imap_Some _ _ t); [done|].
  intros r' x' _. simpl. by rewrite decide_True.
Qed.

Lemma step_split (H : nat -> I -> gmap nat (gmap string Z)) (d : Z) (g : group)
    (t : nat -> I -> tensor) (K : nat -> I -> tensor -> prog tensor group A) xs :
  spmd_step (imap (fun r x => Running (H r x) (SplitCall (t r x) d g (K r x))) xs) =
  imap (fun r x => resume (H r x) (K r x) (split_shard (group_size g) r d (t r x))) xs.
Proof. rewrite spmd_step_imap. by apply imap_ext. Qed.

(** A rank that has returned or raised stays as it is. *)
Lemma rank_step_done ps (r : nat) (s : rank_state A) :
  is_Some (outcome s) -> rank_step ps r s = s.
Proof. destruct s as [h [| | | | | |]|h e]; simpl; by intros [? ?]. Qed.

Lemma spmd_step_done ps :
  Forall (fun s => is_Some (outcome s)) ps -> spmd_step ps = ps.
Proof.
  intros Hdone. unfold spmd_step. apply list_eq. intros i.
  rewrite list_lookup_imap.
  destruct (ps !! i) as [s|] eqn:Hs; [|done]. simpl. f_equal.
  apply rank_step_done. by eapply Forall_lookup_1 in Hdone.
Qed.

Lemma spmd_steps_done (fuel : nat) ps :
  Forall (fun s => is_Some (outcome s)) ps -> spmd_steps fuel ps = ps.
Proof.
  intros Hdone. induction fuel as [|fuel IH]; [done|]. simpl.
  by rewrite spmd_step_done.
Qed.

Lemma raised_done (H : nat -> I -> gmap nat (gmap string Z))
    (e : exn comm_error) xs :
  Forall (fun s : rank_state A => is_Some (outcome s))
    (imap (fun r x => Raised (H r x) e) xs).
Proof. apply Forall_forall. by intros s (r & x & -> & Hx)%elem_of_lookup_imap. Qed.

(** The outcomes once every rank has returned or raised. *)
Lemma outcomes_done (fuel : nat) (F : nat -> I -> rank_state A)
    (out : nat -> I -> result (exn comm_error) A) xs :
  (forall r x, xs !! r = Some x -> outcome (F r x) = Some (out r x)) ->
  outcome <$> spmd_steps fuel (imap F xs) = imap (fun r x => Some (out r x)) xs.
Proof.
  intros Hout. rewrite spmd_steps_done.
  - rewrite fmap_imap. apply imap_ext. intros r x Hx. simpl. by apply Hout.
  - apply Forall_forall. intros s (r & x & -> & Hx)%elem_of_lookup_imap.
    by rewrite (Hout r x Hx).
Qed.

Lemma outcome_resume (h : gmap nat (gmap string Z)) (f : tensor -> A)
    (res : result comm_error tensor) :
  outcome (resume h (fun t => Ret (f t)) res) = Some (result_map f (external res)).
Proof. by destruct res. Qed.
End LockstepFacts.

Lemma outcome_resume_ret (h : gmap nat (gmap string Z))
    (res : result comm_error tensor) :
  outcome (resume h Ret res) = Some (external res).
Proof. by destruct res. Qed.

Lemma fmap_as_imap {A B : Type} (f : A -> B) (l : list A) :
  f <$> l = imap (fun _ x => f x) l.
Proof. symmetry. apply (imap_const f). Qed.

Lemma imap_snd_inputs {I : Type} (ins : list (gmap nat (gmap string Z) * I)) :
  imap (fun _ i => i.2) ins = ins.*2.
Proof. symmetry. apply fmap_as_imap. Qed.

Section AllRanks.
Implicit Types (ins : list (gmap nat (gmap string Z) * tensor)).

Lemma copy_backward_spmd (c fuel : nat) ins :
  spmd (2 + fuel) (_CopyToMatmulParallelRegion.backward c) ins =
  (fun _ => Some (result_map VTensor (external (all_reduce_sum ins.*2)))) <$> ins.
Proof.
  unfold spmd. rewrite !(fmap_as_imap _ ins). unfold_methods. simpl spmd_steps.
  rewrite step_group, step_reduce, imap_snd_inputs.
  apply outcomes_done. intros r x _. apply outcome_resume.
Qed.
Lemma copy_forward_spmd (c fuel : nat) ins :
  spmd fuel (_CopyToMatmulParallelRegion.forward c) ins =
  (fun i => Some (Ok i.2)) <$> ins.
Proof.
  unfold spmd. rewrite !(fmap_as_imap _ ins). unfold_methods.
  by apply outcomes_done.
Qed.

Lemma reduce_forward_spmd (c fuel : nat) ins :
  spmd (2 + fuel) (_ReduceFromMatmulParallelRegion.forward c) ins =
  (fun _ => Some (external (all_reduce_sum ins.*2))) <$> ins.
Proof.
  unfold spmd. rewrite !(fmap_as_imap _ ins). unfold_methods. simpl spmd_steps.
  rewrite step_group, step_reduce, imap_snd_inputs.
  apply outcomes_done. intros r x _. apply outcome_resume_ret.
Qed.

Lemma reduce_backward_spmd (c fuel : nat) ins :
  spmd fuel (_ReduceFromMatmulParallelRegion.backward c) ins =
  (fun i => Some (Ok (VTensor i.2))) <$> ins.
Proof.
  unfold spmd. rewrite !(fmap_as_imap _ ins). unfold_methods.
  by apply outcomes_done.
Qed.

Lemma scatter_forward_spmd (c fuel : nat) (d : Z) ins :
  spmd (3 + fuel) (fun x => _ScatterToMatmulParallelRegion.forward c x d) ins =
  imap (fun r i => Some (external (split_shard (length ins) r d i.2))) ins.
Proof.
  unfold spmd. rewrite !(fmap_as_imap _ ins). unfold_methods. simpl spmd_steps.
  rewrite step_set_attr, step_group, step_split.
  apply outcomes_done. intros r x _. apply outcome_resume_ret.
Qed.

Lemma gather_forward_spmd (c fuel : nat) (d : Z) ins :
  spmd (3 + fuel) (fun x => _GatherFromMatmulParallelRegion.forward c x d) ins =
  (fun _ => Some (external (gather_cat d ins.*2))) <$> ins.
Proof.
  unfold spmd. rewrite !(fmap_as_imap _ ins). unfold_methods. simpl spmd_steps.
  rewrite step_set_attr, step_group, step_gather, imap_snd_inputs.
  apply outcomes_done. intros r x _. apply outcome_resume_ret.
Qed.

Lemma recorded_lookup (c : nat) (d : Z) ins (r : nat)
    (x : gmap nat (gmap string Z) * tensor) :
  recorded c d ins -> ins !! r = Some x -> get_attr c "dim" x.1 = Some d.
Proof. intros Hrec Hx. by eapply Forall_lookup_1 in Hrec. Qed.

Lemma scatter_backward_spmd (c fuel : nat) (d : Z) ins :
  recorded c d ins ->
  spmd (3 + fuel) (_ScatterToMatmulParallelRegion.backward c) ins =
  (fun _ => Some (result_map (fun t => VTuple [VTensor t; VNone])
                    (external (gather_cat d ins.*2)))) <$> ins.
Proof.
  intros Hrec.
  unfold spmd. rewrite !(fmap_as_imap _ ins). unfold_methods. simpl spmd_steps.
  rewrite (step_get_attr _ c "dim" d) by (intros r x; by apply recorded_lookup).
  rewrite step_group, step_gather, imap_snd_inputs.
  apply outcomes_done. intros r x _. apply outcome_resume.
Qed.

Lemma gather_backward_spmd (c fuel : nat) (d : Z) ins :
  recorded c d ins ->
  spmd (3 + fuel) (_GatherFromMatmulParallelRegion.backward c) ins =
  imap (fun r i => Some (result_map (fun t => VTuple [VTensor t; VNone])
                           (external (split_shard (length ins) r d i.2)))) ins.
Proof.
  intros Hrec.
  unfold spmd. rewrite !(fmap_as_imap _ ins). unfold_methods. simpl spmd_steps.
  rewrite (step_get_attr _ c "dim" d) by (intros r x; by apply recorded_lookup).
  rewrite step_group, step_split.
  apply outcomes_done. intros r x _. apply outcome_resume.
Qed.

Lemma gather_within_backward_spmd (c fuel : nat) (d : Z) ins :
  recorded c d ins ->
  spmd (5 + fuel) (_GatherWithinMatmulParallelRegion.backward c) ins =
  imap (fun r _ =>
          Some (result_map (fun t => VTuple [VTensor t; VNone])
                  (external (result_bind (all_reduce_sum ins.*2)
                               (split_shard (length ins) r d))))) ins.
Proof.
  intros Hrec.
  unfold spmd. rewrite !(fmap_as_imap _ ins). unfold_methods. simpl spmd_steps.
  rewrite step_group, step_reduce, imap_snd_inputs.
  destruct (all_reduce_sum ins.*2) as [s|e]; cbn [resume result_bind].
  - rewrite (step_get_attr _ c "dim" d) by (intros r x; by apply recorded_lookup).
    rewrite step_group, step_split.
    apply outcomes_done. intros r x _. apply outcome_resume.
  - rewrite !(spmd_step_done (imap _ _)) by apply raised_done.
    by apply outcomes_done.
Qed.
End AllRanks.

Lemma concat_take_drop (k n : nat) (l : list Z) :
  length l = n * k ->
  concat ((fun r => take k (drop (r * k) l)) <$> seq 0 n) = l.
Proof.
  revert l. induction n as [|n IH]; intros l Hl.
  - by destruct l.
  - simpl seq. rewrite fmap_cons, <- fmap_S_seq, <- list_fmap_compose. simpl concat.
    rewrite drop_0.
    transitivity (take k l ++ drop k l); [|apply take_drop]. f_equal.
    etrans; [|apply (IH (drop k l)); rewrite length_drop; lia].
    f_equal. apply list_fmap_ext. intros i r _. simpl.
    by rewrite drop_drop.
Qed.


Lemma length_chunks (n k : nat) (l : list Z) : length (chunks n k l) = n.
Proof. revert l. induction n as [|n IH]; intros l; simpl; [done | by rewrite IH]. Qed.

Lemma concat_chunks (n k : nat) (l : list Z) :
  length l = n * k -> concat (chunks n k l) = l.
Proof.
  revert l. induction n as [|n IH]; intros l Hl; simpl.
  - by destruct l.
  - rewrite IH by (rewrite length_drop; lia). apply take_drop.
Qed.

Lemma chunks_lengths (n k : nat) (l : list Z) :
  n * k <= length l -> Forall (fun b => length b = k) (chunks n k l).
Proof.
  revert l. induction n as [|n IH]; intros l Hl; simpl; constructor.
  - rewrite length_take. lia.
  - apply IH. rewrite length_drop. lia.
Qed.

Lemma chunks_concat (k : nat) (bs : list (list Z)) :
  Forall (fun b => length b = k) bs -> chunks (length bs) k (concat bs) = bs.
Proof.
  induction 1 as [|b bs Hb _ IH]; simpl; [done|].
  rewrite take_app_length' by done. rewrite drop_app_length' by done.
  by rewrite IH.
Qed.

Lemma lookup_all (bs : list (list Z)) :
  (fun o => default [] (bs !! o)) <$> seq 0 (length bs) = bs.
Proof.
  apply list_eq. intros i. rewrite list_lookup_fmap.
  destruct (decide (i < length bs)) as [Hi|Hi].
  - rewrite lookup_seq_lt by done. simpl.
    destruct (lookup_lt_is_Some_2 bs i Hi) as [b Hb]. by rewrite Hb.
  - rewrite lookup_seq_ge by lia. simpl. symmetry. apply lookup_ge_None. lia.
Qed.

Lemma numel_axis (s : list nat) (i size : nat) :
  s !! i = Some size ->
  numel s = numel (take i s) * (size * numel (drop (S i) s)).
Proof.
  revert i. induction s as [|a s IH]; intros [|i] Hi; simpl in *; try done.
  - injection Hi as ->. rewrite drop_0. lia.
  - rewrite (IH i Hi). fold numel. lia.
Qed.

Lemma axis_Some (d : Z) (s : list nat) (i : nat) :
  axis d s = Some i -> d = Z.of_nat i /\ i < length s.
Proof. unfold axis. case_decide; [|done]. intros [= <-]. lia. Qed.

Lemma axis_of_nat (i : nat) (s : list nat) :
  i < length s -> axis (Z.of_nat i) s = Some i.
Proof.
  intros Hi. unfold axis. rewrite decide_True by lia. by rewrite Nat2Z.id.
Qed.

Lemma split_shard_ok (n r i size : nat) (d : Z) (t : tensor) :
  axis d (shape t) = Some i -> shape t !! i = Some size ->
  n <> 0 -> size `mod` n = 0 ->
  split_shard n r d t = Ok (shard n r i t).
Proof.
  intros Hax Hsize Hn Hdiv. unfold split_shard. rewrite Hax, Hsize. simpl.
  by rewrite decide_True.
Qed.

Lemma gather_cat_ok (i : nat) (d : Z) (s : list nat) (ts : list tensor) :
  ts <> [] -> Forall (fun t => shape t = s) ts -> axis d s = Some i ->
  gather_cat d ts = Ok (cat i s ts).
Proof.
  intros Hne Hshape Hax. destruct ts as [|t0 ts']; [done|].
  pose proof (Forall_inv Hshape) as H0. simpl in H0.
  unfold gather_cat. rewrite H0, Hax. by rewrite decide_True.
Qed.

(** The shards of a tensor, concatenated, are the tensor. *)
Lemma cat_shards (n i size : nat) (t : tensor) :
  shape t !! i = Some size -> well_shaped t -> n <> 0 -> size `mod` n = 0 ->
  cat i (<[i := size `div` n]> (shape t)) ((fun r => shard n r i t) <$> seq 0 n) = t.
Proof.
  intros Hsize Hw Hn Hdiv.
  assert (Hi : i < length (shape t)) by (by eapply lookup_lt_Some).
  assert (Hsz : size = n * (size `div` n)) by (by apply Nat.Div0.div_exact).
  set (c := size `div` n) in *.
  unfold cat. rewrite length_fmap, length_seq.
  rewrite list_lookup_insert_eq by done. simpl default.
  rewrite take_insert_ge by lia. rewrite drop_insert_lt by lia.
  rewrite list_insert_insert_eq, <- Hsz, (list_insert_id _ _ _ Hsize).
  set (outer := numel (take i (shape t))).
  set (inner := numel (drop (S i) (shape t))).
  set (blocks := chunks outer (size * inner) (data t)).
  assert (Hlen : length (data t) = outer * (size * inner)).
  { unfold well_shaped in Hw. rewrite Hw. by apply numel_axis. }
  assert (Hblocks : Forall (fun b => length b = n * (c * inner)) blocks).
  { replace (n * (c * inner)) with (size * inner) by nia.
    apply chunks_lengths. lia. }
  destruct t as [sh dt]. simpl in *. f_equal.
  etrans; [|apply (concat_chunks outer (size * inner)); exact Hlen].
  fold blocks. f_equal.
  etrans; [|apply (lookup_all blocks)].
  unfold blocks at 2. rewrite length_chunks.
  apply list_fmap_ext. intros o ? Ho.
  apply lookup_seq in Ho as [-> Ho]. simpl.
  rewrite <- list_fmap_compose.
  destruct (lookup_lt_is_Some_2 blocks o) as [b Hb].
  { unfold blocks. by rewrite length_chunks. }
  rewrite Hb. simpl.
  assert (Hbl : length b = n * (c * inner)).
  { by eapply Forall_lookup_1 in Hblocks. }
  etrans; [|apply (concat_take_drop (c * inner) n b Hbl)].
  f_equal. apply list_fmap_ext. intros r ? Hr.
  apply lookup_seq in Hr as [-> Hr]. simpl.
  unfold shard. simpl. rewrite Hsize. simpl. fold c outer inner blocks.
  rewrite <- (length_chunks outer (size * inner) dt) at 1. fold blocks.
  rewrite <- (length_fmap (fun b0 => take (c * inner) (drop (r * (c * inner)) b0)) blocks).
  rewrite chunks_concat.
  - by rewrite list_lookup_fmap, Hb.
  - apply Forall_fmap. eapply Forall_impl; [exact Hblocks|].
    intros b0 Hb0. simpl. rewrite length_take, length_drop, Hb0. nia.
Qed.

Lemma scatter_then_gather_spmd (c c' fuel i size : nat) (d : Z) (x : tensor)
    (heaps : list (gmap nat (gmap string Z))) :
  axis d (shape x) = Some i -> shape x !! i = Some size -> well_shaped x ->
  heaps <> [] -> size `mod` length heaps = 0 ->
  spmd (6 + fuel) (scatter_then_gather c c' d) ((fun h => (h, x)) <$> heaps) =
  (fun _ => Some (Ok x)) <$> heaps.
Proof.
  intros Hax Hsize Hw Hne Hdiv.
  assert (Hn : length heaps <> 0) by (by destruct heaps).
  unfold spmd. rewrite <- list_fmap_compose, !(fmap_as_imap _ heaps).
  unfold scatter_then_gather, scatter_to_matmul_parallel_region,
    gather_from_matmul_parallel_region.
  unfold_methods. simpl spmd_steps. unfold compose. cbn [fst snd].
  rewrite step_set_attr, step_group, step_split. cbn [group_size].
  erewrite imap_ext.
  2:{ intros r h Hh. rewrite (split_shard_ok _ _ i size) by done.
      cbn [resume]. reflexivity. }
  rewrite step_set_attr, step_group, step_gather.
  rewrite (imap_seq_0 heaps (fun r => shard (length heaps) r i x)).
  rewrite (gather_cat_ok i d (<[i := size `div` length heaps]> (shape x))).
  - rewrite cat_shards by done. by apply outcomes_done.
  - by destruct heaps.
  - apply Forall_fmap, Forall_forall. intros r _. simpl.
    by rewrite Hsize.
  - apply axis_Some in Hax as [-> Hi]. apply axis_of_nat.
    by rewrite length_insert.
Qed.

(** C5: Scatter then Gather along dimension 0 is the identity.  For a
    tensor [x] of shape [size :: rest] held by every rank of a group whose
    size divides [size], gathering along dimension 0 what scattering along
    dimension 0 left on the ranks gives [x] again on every rank. *)
Theorem scatter_gather_round_trip (c c' fuel size : nat) (rest : list nat)
    (x : tensor) (heaps : list (gmap nat (gmap string Z))) :
  shape x = size :: rest -> well_shaped x ->
  heaps <> [] -> size `mod` length heaps = 0 ->
  spmd (6 + fuel) (scatter_then_gather c c' 0) ((fun h => (h, x)) <$> heaps) =
  (fun _ => Some (Ok x)) <$> heaps.
Proof.
  intros Hs Hw Hne Hdiv.
  apply (scatter_then_gather_spmd c c' fuel 0 size); try done.
  - by rewrite Hs.
  - by rewrite Hs.
Qed.

(** ** The collectives on dense tensors *)

(** The all-reduce sum of tensors of one shape has that shape, and each of
    its elements is the sum of the elements in that place. *)
Lemma all_reduce_sum_spec (s : list nat) (n : nat) (ts : list tensor) :
  ts <> [] ->
  Forall (fun t => shape t = s /\ length (data t) = n) ts ->
  exists r, all_reduce_sum ts = Ok r /\ shape r = s /\ length (data r) = n /\
    forall i, i < n -> data r !! i = Some (sum_at i ts).
Proof.
  intros Hne Hall. destruct ts as [|t0 rest]; [done|]. clear Hne.
  apply Forall_cons in Hall as [[Hs0 Hn0] Hrest]. unfold all_reduce_sum.
  assert (Hgen : forall acc : tensor,
    shape acc = s -> length (data acc) = n ->
    exists r, foldl (fun acc x => result_bind acc (fun a => tensor_add a x))
                (Ok acc) rest = Ok r /\ shape r = s /\ length (data r) = n /\
      forall i, i < n ->
        data r !! i = Some (default 0 (data acc !! i) + sum_at i rest)%Z).
  { induction Hrest as [|t rest [Hs Hn] _ IH]; intros acc Hsa Hna.
    - exists acc. repeat split; try done. intros i Hi. unfold sum_at. simpl.
      destruct (lookup_lt_is_Some_2 (data acc) i) as [v Hv]; [lia|].
      rewrite Hv. simpl. f_equal. lia.
    - simpl. unfold tensor_add at 2. rewrite decide_True by congruence.
      destruct (IH (Tensor (shape acc) (zip_with Z.add (data acc) (data t))))
        as (r & Hr & Hsr & Hnr & Hsum).
      + done.
      + simpl. rewrite length_zip_with. lia.
      + exists r. repeat split; try done. intros i Hi. rewrite (Hsum i Hi).
        simpl. rewrite lookup_zip_with.
        destruct (lookup_lt_is_Some_2 (data acc) i) as [a Ha]; [lia|].
        destruct (lookup_lt_is_Some_2 (data t) i) as [b Hb]; [lia|].
        rewrite Ha, Hb. unfold sum_at. simpl. rewrite Hb. simpl. f_equal.
        symmetry. apply Z.add_assoc. }
  destruct (Hgen t0 Hs0 Hn0) as (r & Hr & Hsr & Hnr & Hsum).
  exists r. repeat split; try done.
Qed.

(** One rank alone: the collectives return a well-shaped tensor as it is. *)
Lemma shard_alone (i size : nat) (t : tensor) :
  shape t !! i = Some size -> well_shaped t -> shard 1 0 i t = t.
Proof.
  intros Hsize Hw. unfold shard. rewrite Hsize. simpl default.
  rewrite Nat.div_1_r, (list_insert_id _ _ _ Hsize).
  destruct t as [sh dt]. simpl in *. f_equal.
  set (outer := numel (take i sh)). set (inner := numel (drop (S i) sh)).
  assert (Hlen : length dt = outer * (size * inner)).
  { unfold well_shaped in Hw. simpl in Hw. rewrite Hw. by apply numel_axis. }
  etrans; [|apply (concat_chunks outer (size * inner)); exact Hlen].
  f_equal. etrans; [|apply list_fmap_id].
  apply Forall_fmap_ext_1. eapply Forall_impl.
  - apply (chunks_lengths outer (size * inner)). lia.
  - intros b Hb. simpl in Hb |- *. rewrite drop_0. apply take_ge. lia.
Qed.

Lemma collectives_alone (i size : nat) (d : Z) (t : tensor) :
  axis d (shape t) = Some i -> shape t !! i = Some size -> well_shaped t ->
  all_reduce_sum [t] = Ok t /\
  split_shard 1 0 d t = Ok t /\
  gather_cat d [t] = Ok t.
Proof.
  intros Hax Hsize Hw. split; [done|]. split.
  - rewrite (split_shard_ok 1 0 i size) by first [done | apply (Nat.mod_1_r size)].
    by rewrite (shard_alone i size).
  - rewrite (gather_cat_ok i d (shape t)); [|done|by constructor|done].
    f_equal.
    pose proof (cat_shards 1 i size t Hsize Hw) as Hcat.
    rewrite Nat.div_1_r, (list_insert_id _ _ _ Hsize) in Hcat.
    simpl in Hcat. rewrite (shard_alone i size) in Hcat by done.
    apply Hcat; [done | apply (Nat.mod_1_r size)].
Qed.

(** ** Scatter and Gather as adjoint linear maps *)

Lemma sumZ_cons (x : Z) (l : list Z) : sumZ (x :: l) = (x + sumZ l)%Z.
Proof. done. Qed.

Lemma sumZ_app (a b : list Z) : sumZ (a ++ b) = (sumZ a + sumZ b)%Z.
Proof.
  induction a as [|x a IH]; [done|].
  rewrite <- app_comm_cons, !sumZ_cons, IH. lia.
Qed.

Lemma sumZ_add {I : Type} (f g : I -> Z) (l : list I) :
  sumZ ((fun x => (f x + g x)%Z) <$> l) = (sumZ (f <$> l) + sumZ (g <$> l))%Z.
Proof.
  induction l as [|x l IH]; [done|].
  rewrite !fmap_cons, !sumZ_cons, IH. lia.
Qed.

Lemma sumZ_zero {I : Type} (l : list I) : sumZ ((fun _ => 0%Z) <$> l) = 0%Z.
Proof.
  induction l as [|x l IH]; [done|]. by rewrite fmap_cons, sumZ_cons, IH.
Qed.

Lemma sumZ_swap {I J : Type} (f : I -> J -> Z) (lo : list I) (lr : list J) :
  sumZ ((fun o => sumZ ((fun r => f o r) <$> lr)) <$> lo) =
  sumZ ((fun r => sumZ ((fun o => f o r) <$> lo)) <$> lr).
Proof.
  induction lo as [|o lo IH].
  - simpl. by rewrite sumZ_zero.
  - rewrite fmap_cons, sumZ_cons, IH, <- sumZ_add.
    apply f_equal, list_fmap_ext. intros j r _. by rewrite fmap_cons, sumZ_cons.
Qed.

Lemma sumZ_ext {I : Type} (f g : I -> Z) (l : list I) :
  (forall j x, l !! j = Some x -> f x = g x) -> sumZ (f <$> l) = sumZ (g <$> l).
Proof. intros H. f_equal. by apply list_fmap_ext. Qed.

Lemma dotl_app (a b c d : list Z) :
  length a = length c -> dotl (a ++ b) (c ++ d) = (dotl a c + dotl b d)%Z.
Proof.
  intros Hlen. unfold dotl. rewrite zip_with_app by done. apply sumZ_app.
Qed.

Lemma length_concat_const {I : Type} (A : I -> list Z) (k : nat) (l : list I) :
  (forall j x, l !! j = Some x -> length (A x) = k) ->
  length (concat (A <$> l)) = length l * k.
Proof.
  induction l as [|x l IH]; intros H; [done|].
  rewrite fmap_cons. cbn [concat length].
  rewrite length_app, (H 0 x eq_refl), IH; [done|].
  intros j y Hy. apply (H (S j) y Hy).
Qed.

Lemma dotl_concat {I : Type} (A B : I -> list Z) (l : list I) :
  (forall j x, l !! j = Some x -> length (A x) = length (B x)) ->
  dotl (concat (A <$> l)) (concat (B <$> l)) =
  sumZ ((fun x => dotl (A x) (B x)) <$> l).
Proof.
  induction l as [|x l IH]; intros H; [done|].
  rewrite !fmap_cons. cbn [concat].
  rewrite dotl_app by apply (H 0 x eq_refl). rewrite sumZ_cons, IH; [done|].
  intros j y Hy. apply (H (S j) y Hy).
Qed.

(** The inner product of a tensor with the concatenation of per-rank
    tensors is the sum over the ranks of the inner products of its shards
    with them: the concatenation along an axis is the adjoint of the cut
    into shards along that axis. *)
Lemma cat_adjoint_of_shard (n i size : nat) (x : tensor) (g : nat -> tensor) :
  shape x !! i = Some size -> well_shaped x -> n <> 0 -> size `mod` n = 0 ->
  (forall r, r < n ->
     shape (g r) = <[i := size `div` n]> (shape x) /\ well_shaped (g r)) ->
  dot x (cat i (<[i := size `div` n]> (shape x)) (g <$> seq 0 n)) =
  sumZ ((fun r => dot (shard n r i x) (g r)) <$> seq 0 n).
Proof.
  intros Hsize Hw Hn Hdiv Hg.
  assert (Hi : i < length (shape x)) by (by eapply lookup_lt_Some).
  assert (Hsz : size = n * (size `div` n)) by (by apply Nat.Div0.div_exact).
  set (c := size `div` n) in *.
  set (outer := numel (take i (shape x))).
  set (inner := numel (drop (S i) (shape x))).
  set (k := c * inner).
  set (blocks := chunks outer (size * inner) (data x)).
  set (X := fun o => default [] (blocks !! o)).
  set (Gb := fun r o => default [] (chunks outer k (data (g r)) !! o)).
  assert (Hlen : length (data x) = outer * (size * inner)).
  { unfold well_shaped in Hw. rewrite Hw. by apply numel_axis. }
  assert (HB : size * inner = n * k) by (unfold k; nia).
  assert (HX : forall o, o < outer -> length (X o) = n * k).
  { intros o Ho. unfold X.
    destruct (lookup_lt_is_Some_2 blocks o) as [b Hb].
    { unfold blocks. by rewrite length_chunks. }
    rewrite Hb. simpl. rewrite <- HB.
    pose proof (chunks_lengths outer (size * inner) (data x)) as Hall.
    eapply Forall_lookup_1 in Hall; [exact Hall | lia | exact Hb]. }
  assert (Hglen : forall r, r < n -> length (data (g r)) = outer * k).
  { intros r Hr. destruct (Hg r Hr) as [Hs Hwr]. unfold well_shaped in Hwr.
    rewrite Hwr, Hs.
    rewrite (numel_axis _ i c) by (by apply list_lookup_insert_eq).
    rewrite take_insert_ge by lia. by rewrite drop_insert_lt by lia. }
  assert (HG : forall r o, r < n -> o < outer -> length (Gb r o) = k).
  { intros r o Hr Ho. unfold Gb.
    destruct (lookup_lt_is_Some_2 (chunks outer k (data (g r))) o) as [b Hb].
    { by rewrite length_chunks. }
    rewrite Hb. simpl.
    pose proof (chunks_lengths outer k (data (g r))) as Hall.
    eapply Forall_lookup_1 in Hall; [exact Hall | rewrite Hglen; lia | exact Hb]. }
  assert (Hxdata : data x = concat (X <$> seq 0 outer)).
  { rewrite <- (concat_chunks outer (size * inner) (data x) Hlen). fold blocks.
    f_equal. rewrite <- (lookup_all blocks) at 1.
    unfold blocks. by rewrite length_chunks. }
  assert (Hgdata : forall r, r < n -> data (g r) = concat (Gb r <$> seq 0 outer)).
  { intros r Hr.
    rewrite <- (concat_chunks outer k (data (g r)) (Hglen r Hr)) at 1.
    f_equal. rewrite <- (lookup_all (chunks outer k (data (g r)))) at 1.
    by rewrite length_chunks. }
  (* the left-hand side, block by block and rank by rank *)
  transitivity (sumZ ((fun o =>
      sumZ ((fun r => dotl (take k (drop (r * k) (X o))) (Gb r o)) <$> seq 0 n))
      <$> seq 0 outer)).
  { unfold dot, cat. cbn [data].
    rewrite list_lookup_insert_eq by done. simpl default.
    rewrite take_insert_ge by lia. rewrite drop_insert_lt by lia.
    fold outer inner k. rewrite Hxdata.
    rewrite dotl_concat.
    - apply sumZ_ext. intros o ? Ho. apply lookup_seq in Ho as [-> Ho]. simpl.
      rewrite <- list_fmap_compose.
      rewrite <- (concat_take_drop k n (X o)) at 1 by (by apply HX).
      rewrite dotl_concat; [done|].
      intros r ? Hr. apply lookup_seq in Hr as [-> Hr]. simpl. fold (Gb r o).
      rewrite length_take, length_drop, (HX o Ho), (HG r o Hr Ho). nia.
    - intros o ? Ho. apply lookup_seq in Ho as [-> Ho]. simpl.
      rewrite (HX o Ho). rewrite <- list_fmap_compose.
      rewrite (length_concat_const _ k); [by rewrite length_seq|].
      intros r ? Hr. apply lookup_seq in Hr as [-> Hr]. simpl.
      by apply HG. }
  rewrite sumZ_swap. apply sumZ_ext.
  intros r ? Hr. apply lookup_seq in Hr as [-> Hr]. simpl.
  unfold dot, shard. cbn [data]. rewrite Hsize. simpl default.
  fold c outer inner k blocks.
  rewrite (Hgdata r Hr).
  replace blocks with (X <$> seq 0 outer).
  2:{ assert (Hlb : length blocks = outer) by apply length_chunks.
      unfold X. rewrite <- Hlb. apply lookup_all. }
  rewrite <- list_fmap_compose. rewrite dotl_concat; [done|].
  intros o ? Ho. apply lookup_seq in Ho as [-> Ho]. simpl.
  rewrite length_take, length_drop, (HX o Ho), (HG r o Hr Ho). nia.
Qed.

(** ** The operators on all ranks *)

(** C2: Copy.  Against any collaborators, [forward] returns its input and
    calls nobody; on every rank of the group it returns that rank's input.
    When every rank runs [backward] on its gradient, every rank gets the
    all-reduce sum of the gradients of all ranks. *)
Theorem copy_forward_identity_backward_reduce :
  (forall (T G X W : Type) (C : collab T G X W) (c : nat) (x : T)
          (h : gmap nat (gmap string Z)) (w : W),
      interp C (_CopyToMatmulParallelRegion.forward c x) h w = Run (Ok x) h w []) /\
  (forall (c fuel : nat) (ins : list (gmap nat (gmap string Z) * tensor)),
      spmd fuel (_CopyToMatmulParallelRegion.forward c) ins =
      (fun i => Some (Ok i.2)) <$> ins) /\
  (forall (c fuel : nat) (ins : list (gmap nat (gmap string Z) * tensor)),
      spmd (2 + fuel) (_CopyToMatmulParallelRegion.backward c) ins =
      (fun _ => Some (result_map VTensor (external (all_reduce_sum ins.*2)))) <$> ins).
Proof.
  split; [done|]. split.
  - apply copy_forward_spmd.
  - apply copy_backward_spmd.
Qed.

(** C3: Reduce.  When every rank runs [forward] on its input, every rank
    gets the all-reduce sum of the inputs of all ranks.  Against any
    collaborators, [backward] returns the incoming gradient and calls
    nobody; on every rank of the group it returns that rank's gradient. *)
Theorem reduce_forward_reduce_backward_identity :
  (forall (c fuel : nat) (ins : list (gmap nat (gmap string Z) * tensor)),
      spmd (2 + fuel) (_ReduceFromMatmulParallelRegion.forward c) ins =
      (fun _ => Some (external (all_reduce_sum ins.*2))) <$> ins) /\
  (forall (T G X W : Type) (C : collab T G X W) (c : nat) (g : T)
          (h : gmap nat (gmap string Z)) (w : W),
      interp C (_ReduceFromMatmulParallelRegion.backward c g) h w =
      Run (Ok (VTensor g)) h w []) /\
  (forall (c fuel : nat) (ins : list (gmap nat (gmap string Z) * tensor)),
      spmd fuel (_ReduceFromMatmulParallelRegion.backward c) ins =
      (fun i => Some (Ok (VTensor i.2))) <$> ins).
Proof.
  split; [apply reduce_forward_spmd|]. split; [done|].
  apply reduce_backward_spmd.
Qed.

(** C1: Scatter and Gather are each other's backward.  On [ctx] objects
    that hold the recorded dimension [d], and for any per-rank gradients:
    the [backward] of Scatter gives every rank, as the gradient of the
    input, what the [forward] of Gather along [d] returns on the same
    tensors, the concatenation of all ranks' tensors along [d]; and the
    [backward] of Gather gives rank [r] what the [forward] of Scatter along
    [d] returns there, shard [r] of that rank's tensor.  The two maps are
    adjoint: for a well-shaped tensor [x] whose size along an axis the group
    size divides, and per-rank tensors [g r] of the shard shape, the inner
    product of [x] with the concatenation of the [g r] is the sum over the
    ranks of the inner products of shard [r] of [x] with [g r]. *)
Theorem scatter_gather_adjoint (c c' fuel : nat) (d : Z)
    (ins : list (gmap nat (gmap string Z) * tensor)) :
  recorded c d ins ->
  (input_grads (spmd (3 + fuel) (_ScatterToMatmulParallelRegion.backward c) ins) =
   outputs (spmd (3 + fuel) (fun g => _GatherFromMatmulParallelRegion.forward c' g d) ins) /\
   spmd (3 + fuel) (fun g => _GatherFromMatmulParallelRegion.forward c' g d) ins =
   (fun _ => Some (external (gather_cat d ins.*2))) <$> ins) /\
  (input_grads (spmd (3 + fuel) (_GatherFromMatmulParallelRegion.backward c) ins) =
   outputs (spmd (3 + fuel) (fun x => _ScatterToMatmulParallelRegion.forward c' x d) ins) /\
   spmd (3 + fuel) (fun x => _ScatterToMatmulParallelRegion.forward c' x d) ins =
   imap (fun r i => Some (external (split_shard (length ins) r d i.2))) ins) /\
  (forall (n i size : nat) (x : tensor) (g : nat -> tensor),
      shape x !! i = Some size -> well_shaped x -> n <> 0 -> size `mod` n = 0 ->
      (forall r, r < n ->
         shape (g r) = <[i := size `div` n]> (shape x) /\ well_shaped (g r)) ->
      dot x (cat i (<[i := size `div` n]> (shape x)) (g <$> seq 0 n)) =
      sumZ ((fun r => dot (shard n r i x) (g r)) <$> seq 0 n)).
Proof.
  intros Hrec. unfold input_grads, outputs.
  rewrite (scatter_backward_spmd c fuel d), (gather_backward_spmd c fuel d) by done.
  rewrite gather_forward_spmd, scatter_forward_spmd.
  repeat split.
  - rewrite <- !list_fmap_compose. apply list_fmap_ext. intros i x _. simpl.
    by destruct (gather_cat d ins.*2).
  - rewrite !fmap_imap. apply imap_ext. intros r x _. simpl.
    by destruct (split_shard (length ins) r d x.2).
  - apply cat_adjoint_of_shard.
Qed.

(** C4: Gather-Within.  Its [forward] is the [forward] of Gather: the same
    program, which against any collaborators records [dim_] in [ctx.dim]
    and which, run on all ranks, gives every rank the concatenation along
    [d] of the tensors of all ranks.  On [ctx] objects that hold the
    recorded dimension [d], its [backward] gives rank [r] shard [r], cut
    along [d], of the all-reduce sum of the gradients of all ranks. *)
Theorem gather_within_reduces_then_splits :
  (forall (T G : Type) (c : nat) (x : T) (d : Z),
      @_GatherWithinMatmulParallelRegion.forward T G c x d =
      _GatherFromMatmulParallelRegion.forward c x d) /\
  (forall (T G X W : Type) (C : collab T G X W) (c : nat) (x : T) (d : Z)
          (h : gmap nat (gmap string Z)) (w : W),
      r_heap (interp C (_GatherWithinMatmulParallelRegion.forward c x d) h w) =
      set_attr c "dim" d h) /\
  (forall (c fuel : nat) (d : Z) (ins : list (gmap nat (gmap string Z) * tensor)),
      spmd (3 + fuel) (fun x => _GatherWithinMatmulParallelRegion.forward c x d) ins =
      (fun _ => Some (external (gather_cat d ins.*2))) <$> ins) /\
  (forall (c fuel : nat) (d : Z) (ins : list (gmap nat (gmap string Z) * tensor)),
      recorded c d ins ->
      spmd (5 + fuel) (_GatherWithinMatmulParallelRegion.backward c) ins =
      imap (fun r _ =>
              Some (result_map (fun t => VTuple [VTensor t; VNone])
                      (external (result_bind (all_reduce_sum ins.*2)
                                   (split_shard (length ins) r d))))) ins).
Proof.
  split; [done|]. split; [|split].
  - intros T G X W C c x d h w. exact (forward_heap C GatherWithin c x d h w).
  - intros c fuel d ins. exact (gather_forward_spmd c fuel d ins).
  - intros c fuel d ins Hrec. by apply gather_within_backward_spmd.
Qed.

(** ** The properties on the sample inputs *)

Lemma scatter_gather_adjoint_witness :
  recorded 0 1 sample_grads /\
  (shape sample_x !! 1 = Some 2 /\ well_shaped sample_x /\ 2 <> 0 /\ 2 `mod` 2 = 0 /\
   forall r, r < 2 ->
     shape (sample_family r) = <[1 := 2 `div` 2]> (shape sample_x) /\
     well_shaped (sample_family r)) /\
  spmd 3 (fun g => _GatherFromMatmulParallelRegion.forward 1 g 1) sample_grads =
  (fun _ => Some (external (gather_cat 1 sample_grads.*2))) <$> sample_grads /\
  dot sample_x (cat 1 (<[1 := 2 `div` 2]> (shape sample_x)) (sample_family <$> seq 0 2)) =
  sumZ ((fun r => dot (shard 2 r 1 sample_x) (sample_family r)) <$> seq 0 2).
Proof.
  assert (H : recorded 0 1 sample_grads).
  { unfold recorded, sample_grads. repeat constructor. }
  assert (H1 : shape sample_x !! 1 = Some 2) by reflexivity.
  assert (H2 : well_shaped sample_x) by reflexivity.
  assert (H3 : 2 <> 0) by lia.
  assert (H4 : 2 `mod` 2 = 0) by reflexivity.
  assert (H5 : forall r, r < 2 ->
     shape (sample_family r) = <[1 := 2 `div` 2]> (shape sample_x) /\
     well_shaped (sample_family r)).
  { intros [|[|r]] Hr; [split; vm_compute; reflexivity | split; vm_compute; reflexivity | lia]. }
  split; [exact H|].
  split; [exact (conj H1 (conj H2 (conj H3 (conj H4 H5))))|].
  pose proof (scatter_gather_adjoint 0 1 0 1 sample_grads H) as (HA & _ & HC).
  split; [exact (proj2 HA)|].
  exact (HC 2 1 2 sample_x sample_family H1 H2 H3 H4 H5).
Defined.

Lemma gather_within_reduces_then_splits_witness :
  recorded 0 0 sample_grads0 /\
  spmd 5 (_GatherWithinMatmulParallelRegion.backward 0) sample_grads0 =
  [Some (Ok (VTuple [VTensor (Tensor [2; 1] [11; 22]%Z); VNone]));
   Some (Ok (VTuple [VTensor (Tensor [2; 1] [33; 44]%Z); VNone]))].
Proof.
  assert (H : recorded 0 0 sample_grads0).
  { unfold recorded, sample_grads0. repeat constructor. }
  split; [exact H|].
  etrans;
    [exact (proj2 (proj2 (proj2 gather_within_reduces_then_splits)) 0 0 0%Z sample_grads0 H)|].
  vm_compute. reflexivity.
Defined.

Lemma scatter_gather_round_trip_witness :
  (shape sample_x = [4; 2] /\ well_shaped sample_x /\
   [(∅ : gmap nat (gmap string Z)); ∅] <> [] /\ 4 `mod` 2 = 0) /\
  spmd 6 (scatter_then_gather 0 1 0) [(∅, sample_x); (∅, sample_x)] =
  [Some (Ok sample_x); Some (Ok sample_x)].
Proof.
  assert (H1 : shape sample_x = [4; 2]) by reflexivity.
  assert (H2 : well_shaped sample_x) by reflexivity.
  assert (H3 : [(∅ : gmap nat (gmap string Z)); ∅] <> []) by discriminate.
  assert (H4 : 4 `mod` length [(∅ : gmap nat (gmap string Z)); ∅] = 0) by reflexivity.
  split; [by repeat split|].
  exact (scatter_gather_round_trip 0 1 0 4 [2] sample_x [∅; ∅] H1 H2 H3 H4).
Defined.

Lemma dim_recorded_in_ctx_witness :
  takes_dim Scatter = true /\
  sample_heap !! 0 =
    r_heap (interp alone_collab (op_forward Scatter 0 sample_x 1) ∅ tt) !! 0 /\
  Forall (fun e => call_dim e.1 = None \/ call_dim e.1 = Some 1%Z)
    (r_trace (interp alone_collab (op_backward Scatter 0 sample_g0) sample_heap tt)).
Proof.
  assert (H1 : takes_dim Scatter = true) by reflexivity.
  assert (H2 : sample_heap !! 0 =
    r_heap (interp alone_collab (op_forward Scatter 0 sample_x 1) ∅ tt) !! 0)
    by (vm_compute; reflexivity).
  split; [exact H1|]. split; [exact H2|].
  exact (proj1 (proj2 (proj2 (proj2
    (dim_recorded_in_ctx alone_collab Scatter 0 sample_x sample_g0 1 ∅ tt H1)))
    sample_heap tt H2)).
Defined.

(** The record outlives the pair: after a [forward] and its [backward] have
    both returned, [ctx.dim] is still there. *)
Lemma dim_outlives_backward :
  is_ok (r_out (interp alone_collab
                  (forward_backward Scatter 0 sample_x 1 sample_g0) ∅ tt)) = true /\
  get_attr 0 "dim"
    (r_heap (interp alone_collab
               (forward_backward Scatter 0 sample_x 1 sample_g0) ∅ tt)) <> None.
Proof. split; [vm_compute; reflexivity | vm_compute; discriminate]. Qed.

Lemma single_rank_identity_witness :
  let C := @noop_collab tensor group comm_error (Group "model_parallel" 1) in
  get_attr 0 "dim" sample_heap = Some 1%Z /\
  r_out (interp C (op_forward Scatter 0 sample_x 1) sample_heap tt) = Ok sample_x /\
  result_map grad_input (r_out (interp C (op_backward Scatter 0 sample_g0) sample_heap tt))
    = Ok (Some sample_g0).
Proof.
  intros C.
  assert (H : get_attr 0 "dim" sample_heap = Some 1%Z) by (vm_compute; reflexivity).
  pose proof (single_rank_identity C (Group "model_parallel" 1)
                (fun w => eq_refl) (fun t w => eq_refl)
                (fun t d w => eq_refl) (fun t d w => eq_refl)
                Scatter 0 sample_x sample_g0 1%Z sample_heap tt) as (Hf & _ & Hb).
  split; [exact H|]. split; [exact Hf | exact (Hb H)].
Defined.

Lemma errors_pass_through_witness :
  get_attr 0 "dim" sample_heap = Some 1%Z /\
  let b := interp alone_collab (op_backward Gather 0 sample_g0) sample_heap tt in
  passes_through (r_out b) (r_trace b).
Proof.
  assert (H : get_attr 0 "dim" sample_heap = Some 1%Z) by (vm_compute; reflexivity).
  split; [exact H|].
  exact (proj2 (proj2 (proj2
    (errors_pass_through alone_collab Gather 0 sample_x sample_g0 1 ∅ tt)))
    sample_heap tt H).
Defined.

Lemma backward_result_shape_witness :
  r_out (interp alone_collab (op_backward Scatter 0 sample_g0) sample_heap tt) =
    Ok (VTuple [VTensor sample_g0; VNone]) /\
  exists t, VTuple [VTensor sample_g0; VNone] = VTuple [VTensor t; VNone].
Proof.
  assert (H : r_out (interp alone_collab (op_backward Scatter 0 sample_g0) sample_heap tt) =
    Ok (VTuple [VTensor sample_g0; VNone])) by (vm_compute; reflexivity).
  split; [exact H|].
  exact (backward_result_shape alone_collab Scatter 0 sample_g0 sample_heap tt _ H).
Defined.



(** ** The operators at work on the sample inputs *)

(** Scatter along dimension 1 on two ranks: each rank keeps one column. *)
Example scatter_columns :
  spmd 3 (fun x => _ScatterToMatmulParallelRegion.forward 0 x 1)
    [(∅, sample_x); (∅, sample_x)] =
  [Some (Ok (Tensor [4; 1] [1; 3; 5; 7]%Z)); Some (Ok (Tensor [4; 1] [2; 4; 6; 8]%Z))].
Proof. vm_compute. reflexivity. Qed.

(** The [backward] of Gather cuts the gradient of the rank itself; the
    [backward] of Gather-Within cuts the sum over the ranks. *)
Example gather_backward_is_local :
  input_grads (spmd 3 (_GatherFromMatmulParallelRegion.backward 0)
    [(set_attr 0 "dim" 0%Z ∅, sample_g0); (set_attr 0 "dim" 0%Z ∅, sample_g1)]) =
  [Some (Ok (Some (Tensor [2; 1] [1; 2]%Z))); Some (Ok (Some (Tensor [2; 1] [30; 40]%Z)))].
Proof. vm_compute. reflexivity. Qed.

Example gather_within_backward_sums :
  input_grads (spmd 5 (_GatherWithinMatmulParallelRegion.backward 0)
    [(set_attr 0 "dim" 0%Z ∅, sample_g0); (set_attr 0 "dim" 0%Z ∅, sample_g1)]) =
  [Some (Ok (Some (Tensor [2; 1] [11; 22]%Z))); Some (Ok (Some (Tensor [2; 1] [33; 44]%Z)))].
Proof. vm_compute. reflexivity. Qed.

(** A collaborator that raises: the error comes out as it is, after the
    calls made so far, and [ctx.dim] has been recorded all the same. *)
Example failure_passes_through :
  interp alone_collab (op_forward Scatter 0 sample_x 7) ∅ tt =
  Run (Err (External (DimOutOfRange 7))) (set_attr 0 "dim" 7%Z ∅) tt
    [(CGroup "model_parallel", None);
     (CSplit sample_x 7 (Group "model_parallel" 1), Some (DimOutOfRange 7))].
Proof. vm_compute. reflexivity. Qed.

(** A [backward] on a [ctx] that no [forward] has seen finds no [ctx.dim]. *)
Example backward_without_forward :
  r_out (interp alone_collab (op_backward Scatter 0 sample_g0) ∅ tt) =
  Err (AttributeError "dim").
Proof. vm_compute. reflexivity. Qed.

(** * Further properties of the operators *)

Lemma get_set_attr_ne (c c' : nat) (a a' : string) (v : Z)
    (h : gmap nat (gmap string Z)) :
  (c', a') <> (c, a) -> get_attr c' a' (set_attr c a v h) = get_attr c' a' h.
Proof.
  intros Hne. unfold get_attr, set_attr.
  destruct (decide (c = c')) as [->|Hc].
  - rewrite lookup_insert_eq. simpl.
    rewrite lookup_insert_ne by congruence.
    by destruct (h !! c').
  - by rewrite lookup_insert_ne.
Qed.

Ltac run_collab_with C tac :=
  repeat first
    [ progress simpl
    | progress tac
    | match goal with
      | |- context [group_of C ?n ?w] =>
          let g := fresh "g" in let e := fresh "e" in let w' := fresh "w" in
          destruct (group_of C n w) as [[g|e] w']
      | |- context [reduce_of C ?t ?g ?w] =>
          let x := fresh "x" in let e := fresh "e" in let w' := fresh "w" in
          destruct (reduce_of C t g w) as [[x|e] w']
      | |- context [split_of C ?t ?d ?g ?w] =>
          let x := fresh "x" in let e := fresh "e" in let w' := fresh "w" in
          destruct (split_of C t d g w) as [[x|e] w']
      | |- context [gather_of C ?t ?d ?g ?w] =>
          let x := fresh "x" in let e := fresh "e" in let w' := fresh "w" in
          destruct (gather_of C t d g w) as [[x|e] w']
      end ].

Section Duality.
Context {T G X W : Type}.
Variable C : collab T G X W.

(** X1: the [backward] of an operator is the [forward] of its dual.  For
    Copy and Reduce, and for Scatter and Gather, against any collaborators
    and from any world: the [backward] of one, on a [ctx] that holds the
    dimension [d], makes the same collaborator calls with the same
    arguments, leaves the world in the same state and returns as the
    gradient of its input the tensor that the [forward] of the other
    returns along [d], or raises the same error. *)
Theorem backward_is_forward_of_dual (o o' : operator) (c c' : nat) (g : T) (d : Z)
    (h : gmap nat (gmap string Z)) (w : W) :
  dual o = Some o' ->
  (takes_dim o = true -> get_attr c "dim" h = Some d) ->
  let b := interp C (op_backward o c g) h w in
  let f := interp C (op_forward o' c' g d) h w in
  result_map grad_input (r_out b) = result_map Some (r_out f) /\
  r_trace b = r_trace f /\
  r_world b = r_world f.
Proof.
  intros Hdual Hd.
  destruct o; simpl in Hdual; try done; injection Hdual as <-;
    unfold_methods; simpl; try rewrite (Hd eq_refl); run_collab C; done.
Qed.

(** X2: the [backward] of Gather-Within is a reduction followed by a
    scatter.  On a [ctx] that holds the dimension [d], it makes the same
    collaborator calls, leaves the world in the same state and returns the
    same tensor, or raises the same error, as
    [scatter_to_matmul_parallel_region(reduce_from_matmul_parallel_region(g), d)]. *)
Theorem gather_within_backward_is_reduce_then_scatter (c c1 c2 : nat) (g : T) (d : Z)
    (h : gmap nat (gmap string Z)) (w : W) :
  get_attr c "dim" h = Some d ->
  let b := interp C (_GatherWithinMatmulParallelRegion.backward c g) h w in
  let f := interp C (reduce_then_scatter c1 c2 d g) h w in
  result_map grad_input (r_out b) = result_map Some (r_out f) /\
  r_trace b = r_trace f /\
  r_world b = r_world f.
Proof.
  intros Hd. unfold reduce_then_scatter, reduce_from_matmul_parallel_region,
    scatter_to_matmul_parallel_region.
  unfold_methods. run_collab_with C ltac:(rewrite Hd); done.
Qed.

(** X3: what the methods read of the store.  [symbolic] and [forward] read
    nothing: on any two stores they make the same calls and return the
    same.  [backward] reads [ctx.dim] and nothing else: on two stores that
    agree on it, whether it is there or not, it makes the same calls and
    returns or raises the same. *)
Theorem store_read_footprint (o : operator) (c : nat) (x g : T) (d : Z)
    (h h' : gmap nat (gmap string Z)) (w : W) :
  (r_out (interp C (op_forward o c x d) h w) = r_out (interp C (op_forward o c x d) h' w) /\
   r_trace (interp C (op_forward o c x d) h w) = r_trace (interp C (op_forward o c x d) h' w) /\
   r_world (interp C (op_forward o c x d) h w) = r_world (interp C (op_forward o c x d) h' w)) /\
  (get_attr c "dim" h = get_attr c "dim" h' ->
   r_out (interp C (op_backward o c g) h w) = r_out (interp C (op_backward o c g) h' w) /\
   r_trace (interp C (op_backward o c g) h w) = r_trace (interp C (op_backward o c g) h' w) /\
   r_world (interp C (op_backward o c g) h w) = r_world (interp C (op_backward o c g) h' w)).
Proof.
  split.
  - destruct o; unfold_methods; run_collab C; done.
  - intros Hd.
    destruct o; unfold_methods; run_collab_with C ltac:(rewrite <- Hd); try done;
      destruct (get_attr c "dim" h); run_collab C; done.
Qed.

(** X4: what the methods write to the store.  [forward] leaves every
    attribute of every [ctx] as it was, but for the [dim] of its own [ctx],
    which holds [dim_] afterwards when the operator takes one and is as it
    was otherwise; [backward] leaves the whole store as it was, the [dim]
    of its own [ctx] included; and this whether the method returns or
    raises. *)
Theorem store_write_footprint (o : operator) (c c' : nat) (a : string) (x g : T)
    (d : Z) (h : gmap nat (gmap string Z)) (w : W) :
  ((c', a) <> (c, "dim") ->
   get_attr c' a (r_heap (interp C (op_forward o c x d) h w)) = get_attr c' a h) /\
  get_attr c "dim" (r_heap (interp C (op_forward o c x d) h w)) =
    (if takes_dim o then Some d else get_attr c "dim" h) /\
  r_heap (interp C (op_backward o c g) h w) = h.
Proof.
  rewrite forward_heap, backward_heap. split; [|split; [|done]].
  - intros Hne. destruct (takes_dim o); [by apply get_set_attr_ne | done].
  - destruct (takes_dim o); [apply get_set_attr | done].
Qed.
End Duality.

Ltac solve_prefix :=
  first [ left; eexists; simpl; reflexivity
        | right; eexists; simpl; reflexivity ].

Section Schedule.
Context {T G X W T' G' X' W' : Type}.
Variable C : collab T G X W.
Variable C' : collab T' G' X' W'.

(** X5: the communication schedule is fixed.  Take two runs of the same
    method of the same operator with the same dimension, on any two inputs,
    stores and worlds and against any two sets of collaborators (as on two
    ranks of a group).  The kinds of the calls they make, with the looked-up
    name and the dimension, agree call by call for as long as both runs
    last, and are the same when both return: what an operator asks of the
    group depends neither on the data nor on the rank. *)
Theorem schedule_is_static (o : operator) (d : Z) (c c' : nat) (x g : T) (x' g' : T')
    (h h' : gmap nat (gmap string Z)) (w : W) (w' : W') :
  (let f := interp C (op_forward o c x d) h w in
   let f' := interp C' (op_forward o c' x' d) h' w' in
   (schedule (r_trace f) `prefix_of` schedule (r_trace f') \/
    schedule (r_trace f') `prefix_of` schedule (r_trace f)) /\
   (is_ok (r_out f) = true -> is_ok (r_out f') = true ->
    schedule (r_trace f) = schedule (r_trace f'))) /\
  (get_attr c "dim" h = Some d -> get_attr c' "dim" h' = Some d ->
   let b := interp C (op_backward o c g) h w in
   let b' := interp C' (op_backward o c' g') h' w' in
   (schedule (r_trace b) `prefix_of` schedule (r_trace b') \/
    schedule (r_trace b') `prefix_of` schedule (r_trace b)) /\
   (is_ok (r_out b) = true -> is_ok (r_out b') = true ->
    schedule (r_trace b) = schedule (r_trace b'))).
Proof.
  split.
  - destruct o; unfold_methods; run_collab C; run_collab C';
      (split; [solve_prefix | done]).
  - intros Hd Hd'.
    destruct o; unfold_methods;
      run_collab_with C ltac:(rewrite Hd);
      run_collab_with C' ltac:(rewrite Hd');
      (split; [solve_prefix | done]).
Qed.
End Schedule.

Ltac solve_lookup_before :=
  let i := fresh "i" in let cl := fresh "cl" in let r := fresh "r" in
  let Hi := fresh "Hi" in let Hc := fresh "Hc" in
  intros i cl r Hi Hc;
  destruct i as [|[|[|[|i]]]]; simpl in Hi; simplify_eq; simpl in Hc;
  try done; eexists; split; reflexivity.

Ltac solve_forall :=
  repeat first [ apply Forall_nil_2 | apply Forall_cons_2; [simpl; try done; auto |] ].

Section Calls.
Context {T G X W : Type}.
Variable C : collab T G X W.

(** Every cut or concatenation that [backward] asks for is along the
    dimension its [ctx] holds. *)
Lemma backward_dims (o : operator) (c : nat) (g : T) (d : Z)
    (h : gmap nat (gmap string Z)) (w : W) :
  get_attr c "dim" h = Some d ->
  Forall (fun e => call_dim e.1 = None \/ call_dim e.1 = Some d)
    (r_trace (interp C (op_backward o c g) h w)).
Proof.
  intros Hd. destruct o; unfold_methods;
    run_collab_with C ltac:(rewrite Hd); solve_forall.
Qed.

(** X6: the group is looked up anew for every collective call.  In every
    run of [symbolic], [forward] or [backward] of any operator, on any
    store, the only name ever looked up is "model_parallel", and every
    collective call comes right after a lookup that returned: no group
    handle is kept from one call to the next. *)
Theorem group_looked_up_for_every_collective (o : operator) (c : nat) (x g : T)
    (d : Z) (h : gmap nat (gmap string Z)) (w : W) :
  let named tr := Forall (fun e : call T G * option X =>
    forall name, kind_of e.1 = KGroup name -> name = "model_parallel") tr in
  (named (r_trace (interp C (op_symbolic o x d) h w)) /\
   lookup_before_collective (r_trace (interp C (op_symbolic o x d) h w))) /\
  (named (r_trace (interp C (op_forward o c x d) h w)) /\
   lookup_before_collective (r_trace (interp C (op_forward o c x d) h w))) /\
  (named (r_trace (interp C (op_backward o c g) h w)) /\
   lookup_before_collective (r_trace (interp C (op_backward o c g) h w))).
Proof.
  cbv zeta. split; [|split].
  - destruct o; unfold_methods; run_collab C;
      (split; [solve_forall; intros; by simplify_eq | solve_lookup_before]).
  - destruct o; unfold_methods; run_collab C;
      (split; [solve_forall; intros; by simplify_eq | solve_lookup_before]).
  - destruct o; unfold_methods; run_collab C;
      try (split; [solve_forall; intros; by simplify_eq | solve_lookup_before]);
      destruct (get_attr c "dim" h); run_collab C;
      (split; [solve_forall; intros; by simplify_eq | solve_lookup_before]).
Qed.

(** X8: how often an operator communicates.  A [forward] makes at most one
    collective call and a [backward] at most two.  When they return, the
    [forward] of Copy and the [backward] of Reduce have made none, the
    [backward] of Gather-Within has made two, and every other method has
    made exactly one. *)
Theorem communication_budget (o : operator) (c : nat) (x g : T) (d : Z)
    (h : gmap nat (gmap string Z)) (w : W) :
  let f := interp C (op_forward o c x d) h w in
  let b := interp C (op_backward o c g) h w in
  (collective_count (r_trace f) <= 1 /\
   (is_ok (r_out f) = true ->
    collective_count (r_trace f) = match o with Copy => 0 | _ => 1 end)) /\
  (collective_count (r_trace b) <= 2 /\
   (is_ok (r_out b) = true ->
    collective_count (r_trace b) =
      match o with Reduce => 0 | GatherWithin => 2 | _ => 1 end)).
Proof.
  cbv zeta. split.
  - destruct o; unfold_methods; run_collab C; (split; [cbv; lia | done]).
  - destruct o; unfold_methods; run_collab C;
      try (split; [cbv; lia | done]);
      destruct (get_attr c "dim" h); run_collab C; (split; [cbv; lia | done]).
Qed.

(** X12: the arguments reach the collectives as they are.  Every
    collective call of [symbolic] and of [forward] is on the input tensor
    itself and, where it takes a dimension, along the [dim_] given, whatever
    integer that is; every collective call of the [backward] of Copy,
    Scatter and Gather is on the incoming gradient itself. *)
Theorem arguments_reach_collectives (o : operator) (c : nat) (x g : T) (d : Z)
    (h : gmap nat (gmap string Z)) (w : W) :
  let handed (t : T) tr := Forall (fun e : call T G * option X =>
    is_collective e.1 = true -> call_tensor e.1 = Some t) tr in
  let along tr := Forall (fun e : call T G * option X =>
    call_dim e.1 = None \/ call_dim e.1 = Some d) tr in
  (handed x (r_trace (interp C (op_symbolic o x d) h w)) /\
   along (r_trace (interp C (op_symbolic o x d) h w))) /\
  (handed x (r_trace (interp C (op_forward o c x d) h w)) /\
   along (r_trace (interp C (op_forward o c x d) h w))) /\
  (o <> GatherWithin -> handed g (r_trace (interp C (op_backward o c g) h w))).
Proof.
  cbv zeta. split; [|split].
  - destruct o; unfold_methods; run_collab C; (split; solve_forall).
  - destruct o; unfold_methods; run_collab C; (split; solve_forall).
  - intros Hne. destruct o; try done; unfold_methods; run_collab C;
      try solve_forall;
      destruct (get_attr c "dim" h); run_collab C; solve_forall.
Qed.
End Calls.

Section Failures.
Context {T G X W : Type}.
Variable C : collab T G X W.

(** X7: collectives run on the group that was looked up.  When the lookup
    of "model_parallel" returns the handle [grp] from every world, every
    collective call of every method of every operator is made on [grp]. *)
Theorem collectives_on_looked_up_group (grp : G) (o : operator) (c : nat) (x g : T)
    (d : Z) (h : gmap nat (gmap string Z)) (w : W) :
  (forall w0, (group_of C "model_parallel" w0).1 = Ok grp) ->
  let on_grp tr := Forall (fun e : call T G * option X =>
    is_collective e.1 = true -> call_group e.1 = Some grp) tr in
  on_grp (r_trace (interp C (op_symbolic o x d) h w)) /\
  on_grp (r_trace (interp C (op_forward o c x d) h w)) /\
  on_grp (r_trace (interp C (op_backward o c g) h w)).
Proof.
  intros Hstable. cbv zeta.
  assert (Hlook : forall w0, exists w1, group_of C "model_parallel" w0 = (Ok grp, w1)).
  { intros w0. specialize (Hstable w0).
    destruct (group_of C "model_parallel" w0) as [r w1]. simpl in Hstable.
    subst r. by exists w1. }
  split; [|split].
  - destruct o; unfold_methods; simpl; try solve_forall;
      destruct (Hlook w) as [w1 ->]; run_collab C; solve_forall.
  - destruct o; unfold_methods; simpl; try solve_forall;
      destruct (Hlook w) as [w1 ->]; run_collab C; solve_forall.
  - destruct o; unfold_methods; simpl; try solve_forall.
    + destruct (Hlook w) as [w1 ->]; run_collab C; solve_forall.
    + destruct (get_attr c "dim" h); simpl; try solve_forall.
      destruct (Hlook w) as [w1 ->]; run_collab C; solve_forall.
    + destruct (get_attr c "dim" h); simpl; try solve_forall.
      destruct (Hlook w) as [w1 ->]; run_collab C; solve_forall.
    + destruct (Hlook w) as [w1 ->]. simpl.
      destruct (reduce_of C g grp w1) as [[red|e] w2]; simpl; try solve_forall.
      destruct (get_attr c "dim" h); simpl; try solve_forall.
      destruct (Hlook w2) as [w3 ->]; run_collab C; solve_forall.
Qed.

(** X9: no group, no communication.  When the lookup of "model_parallel"
    raises, every [forward] but that of Copy, and every [backward] but that
    of Reduce on a [ctx] that holds its dimension, raises that error after
    this one call: no collective is attempted. *)
Theorem lookup_failure_stops (e : X) (w1 : W) (o : operator) (c : nat) (x g : T)
    (d : Z) (h : gmap nat (gmap string Z)) (w : W) :
  group_of C "model_parallel" w = (Err e, w1) ->
  (o <> Copy ->
   let f := interp C (op_forward o c x d) h w in
   r_out f = Err (External e) /\
   r_trace f = [(CGroup "model_parallel", Some e)] /\ r_world f = w1) /\
  (o <> Reduce -> (takes_dim o = true -> get_attr c "dim" h = Some d) ->
   let b := interp C (op_backward o c g) h w in
   r_out b = Err (External e) /\
   r_trace b = [(CGroup "model_parallel", Some e)] /\ r_world b = w1).
Proof.
  intros Hfail. split.
  - intros Hne. destruct o; try done; unfold_methods; simpl; by rewrite Hfail.
  - intros Hne Hd. destruct o; try done; unfold_methods; simpl;
      try rewrite (Hd eq_refl); simpl; by rewrite Hfail.
Qed.

(** X10: a [backward] on a [ctx] without [dim].  The [backward] of Scatter
    and of Gather raises [AttributeError] at once, having called nobody.
    The [backward] of Gather-Within reads [ctx.dim] only after its
    reduction: when the lookup and the reduction return, it raises
    [AttributeError] after these two calls, with the world as the
    reduction left it. *)
Theorem backward_without_dim (c : nat) (g : T)
    (h : gmap nat (gmap string Z)) (w : W) :
  get_attr c "dim" h = None ->
  interp C (op_backward Scatter c g) h w = Run (Err (AttributeError "dim")) h w [] /\
  interp C (op_backward Gather c g) h w = Run (Err (AttributeError "dim")) h w [] /\
  forall (grp : G) (w1 : W) (red : T) (w2 : W),
    group_of C "model_parallel" w = (Ok grp, w1) ->
    reduce_of C g grp w1 = (Ok red, w2) ->
    interp C (op_backward GatherWithin c g) h w =
    Run (Err (AttributeError "dim")) h w2
      [(CGroup "model_parallel", None); (CReduce g grp, None)].
Proof.
  intros Hd. split; [|split].
  - unfold_methods. simpl. by rewrite Hd.
  - unfold_methods. simpl. by rewrite Hd.
  - intros grp w1 red w2 Hg Hr. unfold_methods. simpl.
    rewrite Hg. simpl. rewrite Hr. simpl. by rewrite Hd.
Qed.

(** X11: the last [forward] on a [ctx] wins.  When two [forward] calls with
    a dimension are made on the same [ctx], the second one overwrites what
    the first recorded: afterwards [ctx.dim] is the dimension of the second
    call, and every cut or concatenation of a [backward] on that [ctx] is
    along it. *)
Theorem last_forward_wins (o1 o2 o : operator) (c : nat) (x1 x2 g : T) (d1 d2 : Z)
    (h : gmap nat (gmap string Z)) (w w' w'' : W) :
  takes_dim o2 = true ->
  let h1 := r_heap (interp C (op_forward o1 c x1 d1) h w) in
  let h2 := r_heap (interp C (op_forward o2 c x2 d2) h1 w') in
  get_attr c "dim" h2 = Some d2 /\
  Forall (fun e => call_dim e.1 = None \/ call_dim e.1 = Some d2)
    (r_trace (interp C (op_backward o c g) h2 w'')).
Proof.
  intros Hd. cbv zeta.
  assert (Hget : get_attr c "dim"
    (r_heap (interp C (op_forward o2 c x2 d2)
       (r_heap (interp C (op_forward o1 c x1 d1) h w)) w')) = Some d2).
  { rewrite (forward_heap C o2), Hd. apply get_set_attr. }
  split; [exact Hget|]. by apply backward_dims.
Qed.
End Failures.

Section Stacks.
Context {T G X W : Type}.
Variable C : collab T G X W.
Implicit Types (ls : list (operator * nat * Z)).

Lemma op_apply_forward (o : operator) (c : nat) (x : T) (d : Z) :
  @op_apply T G o c x d = op_forward o c x d.
Proof. by destruct o. Qed.

Lemma chain_heap_cons (o : operator) (c : nat) (d : Z) ls
    (h : gmap nat (gmap string Z)) :
  chain_heap ((o, c, d) :: ls) h =
  chain_heap ls (if takes_dim o then set_attr c "dim" d h else h).
Proof. done. Qed.

Lemma forward_chain_no_attribute_error ls (x : T)
    (h : gmap nat (gmap string Z)) (w : W) (a : string) :
  r_out (interp C (forward_chain ls x) h w) <> Err (AttributeError a).
Proof.
  revert x h w. induction ls as [|[[o c] d] rest IH]; intros x h w; [done|].
  cbn [forward_chain]. rewrite interp_bind. cbv zeta.
  rewrite op_apply_forward.
  destruct (r_out (interp C (op_forward o c x d) h w)) as [y|e] eqn:Hf; simpl.
  - apply IH.
  - intros [= ->]. by apply forward_no_attribute_error in Hf.
Qed.

(** The store after a stack of forward calls that returned. *)
Lemma forward_chain_heap ls (x : T) (h : gmap nat (gmap string Z)) (w : W) :
  is_ok (r_out (interp C (forward_chain ls x) h w)) = true ->
  r_heap (interp C (forward_chain ls x) h w) = chain_heap ls h.
Proof.
  revert x h w. induction ls as [|[[o c] d] rest IH]; intros x h w; [done|].
  cbn [forward_chain]. rewrite interp_bind. cbv zeta.
  rewrite op_apply_forward.
  pose proof (forward_heap C o c x d h w) as Hh.
  destruct (r_out (interp C (op_forward o c x d) h w)) as [y|e]; simpl; [|done].
  intros Hok. rewrite IH by done. by rewrite Hh.
Qed.

Lemma chain_heap_frame ls (c : nat) (a : string) (h : gmap nat (gmap string Z)) :
  c ∉ (fun l => l.1.2) <$> ls ->
  get_attr c a (chain_heap ls h) = get_attr c a h.
Proof.
  revert h. induction ls as [|[[o c'] d] rest IH]; intros h Hnot; [done|].
  rewrite fmap_cons in Hnot. apply not_elem_of_cons in Hnot as [Hne Hrest].
  simpl in Hne. rewrite chain_heap_cons, IH by done.
  destruct (takes_dim o); [|done]. apply get_set_attr_ne. congruence.
Qed.

(** With one [ctx] per call, every call of the stack finds its dimension
    recorded afterwards. *)
Lemma chain_heap_recorded ls (o : operator) (c : nat) (d : Z)
    (h : gmap nat (gmap string Z)) :
  NoDup ((fun l => l.1.2) <$> ls) -> (o, c, d) ∈ ls -> takes_dim o = true ->
  get_attr c "dim" (chain_heap ls h) = Some d.
Proof.
  revert h. induction ls as [|[[o' c'] d'] rest IH]; intros h Hnd Hin Hd.
  - by apply elem_of_nil in Hin.
  - rewrite fmap_cons in Hnd. apply NoDup_cons in Hnd as [Hfresh Hnd].
    rewrite chain_heap_cons.
    apply elem_of_cons in Hin as [Heq|Hin].
    + injection Heq as <- <- <-. rewrite Hd.
      rewrite chain_heap_frame by done. apply get_set_attr.
    + by apply IH.
Qed.

(** Whatever a [backward] returns carries a gradient for the input. *)
Lemma backward_returns_gradient (o : operator) (c : nat) (g : T)
    (h : gmap nat (gmap string Z)) (w : W) (v : pyval T) :
  r_out (interp C (op_backward o c g) h w) = Ok v -> is_Some (grad_input v).
Proof.
  destruct o; unfold_methods; run_collab C; try done;
    try (intros [= <-]; by eexists);
    destruct (get_attr c "dim" h); run_collab C; try done;
    intros [= <-]; by eexists.
Qed.

Lemma backward_chain_run ls (g : T) (h : gmap nat (gmap string Z)) (w : W) :
  (forall o c d, (o, c, d) ∈ ls -> takes_dim o = true ->
     is_Some (get_attr c "dim" h)) ->
  (forall a, r_out (interp C (backward_chain ls g) h w) <> Err (AttributeError a)) /\
  (forall v, r_out (interp C (backward_chain ls g) h w) = Ok v -> is_Some v).
Proof.
  revert g w. induction ls as [|[[o c] d] rest IH]; intros g w Hrec.
  - split; [done|]. simpl. intros v [= <-]. by eexists.
  - cbn [backward_chain]. rewrite interp_bind. cbv zeta.
    pose proof (backward_heap C o c g h w) as Hh.
    assert (Hno : forall a,
      r_out (interp C (op_backward o c g) h w) <> Err (AttributeError a)).
    { intros a. destruct (takes_dim o) eqn:Hd.
      - destruct (Hrec o c d) as [d' Hd']; [apply elem_of_cons; by left | done |].
        apply backward_no_attribute_error with (d := d'). by intros _.
      - apply backward_no_attribute_error with (d := d). by rewrite Hd. }
    pose proof (backward_returns_gradient o c g h w) as Hgrad.
    destruct (r_out (interp C (op_backward o c g) h w)) as [v|e]; simpl.
    + destruct (Hgrad v eq_refl) as [g' ->]. rewrite Hh.
      apply IH. intros o' c' d' Hin. apply (Hrec o' c' d').
      apply elem_of_cons. by right.
    + split; [|done]. intros a [= ->]. by apply (Hno a).
Qed.

(** X13: a stack of exported functions passes errors through.  Against any
    collaborators, a stack of any length of forward calls returns only if
    no collaborator call raised, and otherwise raises the error of the last
    call made, unchanged: the calls after the failing one are never made.
    When it returns, the store holds the dimension of the last call made on
    each [ctx]. *)
Theorem forward_chain_passes_errors_through ls (x : T)
    (h : gmap nat (gmap string Z)) (w : W) :
  let r := interp C (forward_chain ls x) h w in
  passes_through (r_out r) (r_trace r) /\
  (is_ok (r_out r) = true -> r_heap r = chain_heap ls h).
Proof.
  cbv zeta. split.
  - apply passes_through_of_run. intros a. apply forward_chain_no_attribute_error.
  - apply forward_chain_heap.
Qed.

(** X14: a differentiation pass through a stack with one [ctx] per call.
    When the [ctx] objects of the calls are pairwise distinct, the forward
    calls in order followed by the backward methods in reverse order never
    fail to find a [ctx.dim]: the pass returns only if no collaborator call
    raised, raises only the error of the last call made, and when it
    returns it returns a gradient for the input of the stack. *)
Theorem training_pass_finds_every_dim ls (x g : T)
    (h : gmap nat (gmap string Z)) (w : W) :
  NoDup ((fun l => l.1.2) <$> ls) ->
  let r := interp C (training_pass ls x g) h w in
  passes_through (r_out r) (r_trace r) /\
  (forall v, r_out r = Ok v -> is_Some v).
Proof.
  intros Hnd. cbv zeta.
  assert (Hrun :
    (forall a, r_out (interp C (training_pass ls x g) h w) <> Err (AttributeError a)) /\
    (forall v, r_out (interp C (training_pass ls x g) h w) = Ok v -> is_Some v)).
  { unfold training_pass. rewrite interp_bind. cbv zeta.
    pose proof (forward_chain_heap ls x h w) as Hh.
    pose proof (forward_chain_no_attribute_error ls x h w) as Hno.
    destruct (r_out (interp C (forward_chain ls x) h w)) as [y|e]; simpl.
    - rewrite Hh by done. apply backward_chain_run.
      intros o c d Hin Hd. exists d.
      apply (chain_heap_recorded ls o c d); [done | | done].
      exact (proj1 (elem_of_reverse _ _) Hin).
    - split; [|done]. intros a [= ->]. by apply (Hno a). }
  destruct Hrun as [Hno Hsome]. split; [|exact Hsome].
  by apply passes_through_of_run.
Qed.
End Stacks.

(** ** The further properties on the sample inputs *)

Lemma backward_is_forward_of_dual_witness :
  dual Scatter = Some Gather /\
  (takes_dim Scatter = true -> get_attr 0 "dim" sample_heap = Some 1%Z) /\
  r_trace (interp alone_collab (op_backward Scatter 0 sample_g0) sample_heap tt) =
  r_trace (interp alone_collab (op_forward Gather 1 sample_g0 1) sample_heap tt).
Proof.
  assert (H1 : dual Scatter = Some Gather) by reflexivity.
  assert (H2 : takes_dim Scatter = true -> get_attr 0 "dim" sample_heap = Some 1%Z)
    by (intros _; vm_compute; reflexivity).
  split; [exact H1|]. split; [exact H2|].
  exact (proj1 (proj2 (backward_is_forward_of_dual alone_collab
    Scatter Gather 0 1 sample_g0 1 sample_heap tt H1 H2))).
Defined.

Lemma gather_within_backward_is_reduce_then_scatter_witness :
  get_attr 0 "dim" sample_heap = Some 1%Z /\
  r_trace (interp alone_collab
             (_GatherWithinMatmulParallelRegion.backward 0 sample_x) sample_heap tt) =
  r_trace (interp alone_collab (reduce_then_scatter 1 2 1 sample_x) sample_heap tt).
Proof.
  assert (H : get_attr 0 "dim" sample_heap = Some 1%Z) by (vm_compute; reflexivity).
  split; [exact H|].
  exact (proj1 (proj2 (gather_within_backward_is_reduce_then_scatter alone_collab
    0 1 2 sample_x 1 sample_heap tt H))).
Defined.

Lemma store_read_footprint_witness :
  get_attr 0 "dim" sample_heap = get_attr 0 "dim" (set_attr 5 "dim" 3%Z sample_heap) /\
  r_out (interp alone_collab (op_backward Gather 0 sample_x) sample_heap tt) =
  r_out (interp alone_collab (op_backward Gather 0 sample_x)
           (set_attr 5 "dim" 3%Z sample_heap) tt).
Proof.
  assert (H : get_attr 0 "dim" sample_heap =
              get_attr 0 "dim" (set_attr 5 "dim" 3%Z sample_heap))
    by (vm_compute; reflexivity).
  split; [exact H|].
  exact (proj1 (proj2 (store_read_footprint alone_collab Gather 0 sample_x sample_x 0
    sample_heap (set_attr 5 "dim" 3%Z sample_heap) tt) H)).
Defined.

Lemma store_write_footprint_witness :
  (0, "needs_input_grad") <> (0, "dim") /\
  get_attr 0 "needs_input_grad"
    (r_heap (interp alone_collab (op_forward Scatter 0 sample_x 1)
               (set_attr 0 "needs_input_grad" 1%Z ∅) tt)) =
  get_attr 0 "needs_input_grad" (set_attr 0 "needs_input_grad" 1%Z ∅) /\
  r_heap (interp alone_collab (op_backward Scatter 0 sample_g0) sample_heap tt) =
  sample_heap.
Proof.
  assert (H : (0, "needs_input_grad") <> (0, "dim")) by discriminate.
  pose proof (store_write_footprint alone_collab Scatter 0 0 "needs_input_grad"
    sample_x sample_x 1 (set_attr 0 "needs_input_grad" 1%Z ∅) tt) as (Hf & _ & _).
  pose proof (store_write_footprint alone_collab Scatter 0 0 "dim"
    sample_x sample_g0 1 sample_heap tt) as (_ & _ & Hb).
  split; [exact H|]. split; [exact (Hf H) | exact Hb].
Defined.

Lemma schedule_is_static_witness :
  (get_attr 0 "dim" sample_heap = Some 1%Z /\ get_attr 0 "dim" sample_heap = Some 1%Z) /\
  (schedule (r_trace (interp alone_collab (op_backward Gather 0 sample_g0) sample_heap tt))
     `prefix_of`
   schedule (r_trace (interp unconfigured_collab (op_backward Gather 0 sample_g1) sample_heap tt))
   \/
   schedule (r_trace (interp unconfigured_collab (op_backward Gather 0 sample_g1) sample_heap tt))
     `prefix_of`
   schedule (r_trace (interp alone_collab (op_backward Gather 0 sample_g0) sample_heap tt))).
Proof.
  assert (H : get_attr 0 "dim" sample_heap = Some 1%Z) by (vm_compute; reflexivity).
  split; [exact (conj H H)|].
  exact (proj1 (proj2 (schedule_is_static alone_collab unconfigured_collab
    Gather 1 0 0 sample_x sample_g0 sample_x sample_g1 sample_heap sample_heap tt tt) H H)).
Defined.

Lemma group_looked_up_for_every_collective_witness :
  lookup_before_collective
    (r_trace (interp alone_collab (op_backward GatherWithin 0 sample_x) sample_heap tt)).
Proof.
  exact (proj2 (proj2 (proj2 (group_looked_up_for_every_collective alone_collab
    GatherWithin 0 sample_x sample_x 1 sample_heap tt)))).
Defined.

Lemma collectives_on_looked_up_group_witness :
  (forall w0 : unit,
     (group_of alone_collab "model_parallel" w0).1 = Ok (Group "model_parallel" 1)) /\
  Forall (fun e : call tensor group * option comm_error =>
            is_collective e.1 = true -> call_group e.1 = Some (Group "model_parallel" 1))
    (r_trace (interp alone_collab (op_forward Scatter 0 sample_x 1) ∅ tt)).
Proof.
  assert (H : forall w0 : unit,
    (group_of alone_collab "model_parallel" w0).1 = Ok (Group "model_parallel" 1))
    by (intros w0; reflexivity).
  split; [exact H|].
  exact (proj1 (proj2 (collectives_on_looked_up_group alone_collab
    (Group "model_parallel" 1) Scatter 0 sample_x sample_x 1 ∅ tt H))).
Defined.

Lemma communication_budget_witness :
  is_ok (r_out (interp alone_collab (op_backward GatherWithin 0 sample_x) sample_heap tt))
    = true /\
  collective_count
    (r_trace (interp alone_collab (op_backward GatherWithin 0 sample_x) sample_heap tt)) = 2.
Proof.
  assert (H : is_ok (r_out (interp alone_collab (op_backward GatherWithin 0 sample_x)
                              sample_heap tt)) = true) by (vm_compute; reflexivity).
  split; [exact H|].
  exact (proj2 (proj2 (communication_budget alone_collab GatherWithin 0 sample_x sample_x 1
    sample_heap tt)) H).
Defined.

Lemma lookup_failure_stops_witness :
  (group_of unconfigured_collab "model_parallel" tt =
     (Err (GroupNotFound "model_parallel"), tt) /\ Scatter <> Copy) /\
  r_trace (interp unconfigured_collab (op_forward Scatter 0 sample_x 1) ∅ tt) =
  [(CGroup "model_parallel", Some (GroupNotFound "model_parallel"))].
Proof.
  assert (H1 : group_of unconfigured_collab "model_parallel" tt =
     (Err (GroupNotFound "model_parallel"), tt)) by reflexivity.
  assert (H2 : Scatter <> Copy) by discriminate.
  split; [exact (conj H1 H2)|].
  exact (proj1 (proj2 (proj1 (lookup_failure_stops unconfigured_collab
    (GroupNotFound "model_parallel") tt Scatter 0 sample_x sample_x 1 ∅ tt H1) H2))).
Defined.

Lemma backward_without_dim_witness :
  get_attr 0 "dim" (∅ : gmap nat (gmap string Z)) = None /\
  interp alone_collab (op_backward Scatter 0 sample_g0) ∅ tt =
  Run (Err (AttributeError "dim")) ∅ tt [].
Proof.
  assert (H : get_attr 0 "dim" (∅ : gmap nat (gmap string Z)) = None) by reflexivity.
  split; [exact H|].
  exact (proj1 (backward_without_dim alone_collab 0 sample_g0 ∅ tt H)).
Defined.

Lemma last_forward_wins_witness :
  takes_dim Gather = true /\
  get_attr 0 "dim"
    (r_heap (interp alone_collab (op_forward Gather 0 sample_x 1)
       (r_heap (interp alone_collab (op_forward Scatter 0 sample_x 0) ∅ tt)) tt)) =
  Some 1%Z.
Proof.
  assert (H : takes_dim Gather = true) by reflexivity.
  split; [exact H|].
  exact (proj1 (last_forward_wins alone_collab Scatter Gather Scatter 0
    sample_x sample_x sample_g0 0 1 ∅ tt tt tt H)).
Defined.

Lemma arguments_reach_collectives_witness :
  Scatter <> GatherWithin /\
  Forall (fun e : call tensor group * option comm_error =>
            is_collective e.1 = true -> call_tensor e.1 = Some sample_g0)
    (r_trace (interp alone_collab (op_backward Scatter 0 sample_g0) sample_heap tt)).
Proof.
  assert (H : Scatter <> GatherWithin) by discriminate.
  split; [exact H|].
  exact (proj2 (proj2 (arguments_reach_collectives alone_collab Scatter 0 sample_x sample_g0 1
    sample_heap tt)) H).
Defined.

Lemma forward_chain_passes_errors_through_witness :
  is_ok (r_out (interp alone_collab (forward_chain sample_stack sample_x) ∅ tt)) = true /\
  r_heap (interp alone_collab (forward_chain sample_stack sample_x) ∅ tt) =
  chain_heap sample_stack ∅.
Proof.
  assert (H : is_ok (r_out (interp alone_collab (forward_chain sample_stack sample_x) ∅ tt))
              = true) by (vm_compute; reflexivity).
  split; [exact H|].
  exact (proj2 (forward_chain_passes_errors_through alone_collab sample_stack sample_x ∅ tt) H).
Defined.

Lemma training_pass_finds_every_dim_witness :
  NoDup ((fun l : operator * nat * Z => l.1.2) <$> sample_stack) /\
  passes_through
    (r_out (interp alone_collab (training_pass sample_stack sample_x sample_x) ∅ tt))
    (r_trace (interp alone_collab (training_pass sample_stack sample_x sample_x) ∅ tt)).
Proof.
  assert (H : NoDup ((fun l : operator * nat * Z => l.1.2) <$> sample_stack)).
  { apply (bool_decide_unpack _). vm_compute. exact I. }
  split; [exact H|].
  exact (proj1 (training_pass_finds_every_dim alone_collab sample_stack sample_x sample_x
    ∅ tt H)).
Defined.

(** The pass through the sample stack returns the gradient it was given:
    alone in its group, every operator is the identity both ways. *)
Example training_pass_alone :
  r_out (interp alone_collab (training_pass sample_stack sample_x sample_x) ∅ tt)
  = Ok (Some sample_x).
Proof. vm_compute. reflexivity. Qed.
